(** * Verification of [scripts/update_confluence.py]

    The script is a sequential client of a wiki's REST interface: it lists the
    pages of one space, fetches every page, skips the pages whose stored body
    already holds the status banner and writes the others back with the banner
    put in front and the version number raised by one.

    The embedding follows the script function by function.  Python [str]
    values are byte strings holding the UTF-8 text; the marker tested by the
    skip guard is ASCII, so containment over bytes and containment over code
    points agree.  Python integers are [Z].  Every effect of the script is
    either an HTTP exchange or a printed line; both are recorded, in order, in
    one trace, next to the state of the remote service.  A [RequestException]
    is an outcome of its own, so that what each [try]/[except] absorbs is
    visible; the unbounded [while True] of the listing is driven by fuel.

    Decoded JSON bodies are records with the fields the script reads; the
    body of a fetched page may also be a value that counts as false, the one
    thing [main] tests before it reads the fields.  The
    [requests] library and the remote service are not part of the script: they
    are a [Transport] the client is parameterised over, and [Fixture] gives
    one such service (a page store with optimistic versioning, a paged
    listing and a schedule of injected failures) on which runs are computed. *)

From Stdlib Require Import String Ascii List ZArith Lia Bool Arith.
From Stdlib Require Import DecimalString.
From Stdlib Require DecimalNat DecimalFacts.
Import ListNotations.

Local Open Scope string_scope.
Local Open Scope list_scope.

(** Python's [+] on strings. *)
Infix "+++" := String.append (right associativity, at level 60).

(* ================================================================== *)
(** * Strings *)
(* ================================================================== *)

Module Str.

(** A double quote and a line feed, by code. *)
Definition dq : string := String (ascii_of_nat 34) EmptyString.
Definition nl : string := String (ascii_of_nat 10) EmptyString.

(** [needle in hay] on Python strings: [needle] starts at some position
    of [hay]. *)
Fixpoint str_in (needle hay : string) : bool :=
  String.prefix needle hay
  || match hay with
     | EmptyString => false
     | String _ rest => str_in needle rest
     end.

(** [s * n]. *)
Fixpoint str_mul (s : string) (n : nat) : string :=
  match n with
  | O => EmptyString
  | S k => s +++ str_mul s k
  end.

(** [str(n)] for a length and for an integer. *)
Definition str_of_nat (n : nat) : string :=
  NilZero.string_of_uint (Nat.to_uint n).

Definition str_of_Z (z : Z) : string :=
  NilZero.string_of_int (Z.to_int z).

(** The lines of a text, each closed by a line feed. *)
Definition unlines (ls : list string) : string :=
  fold_right (fun l acc => l +++ nl +++ acc) EmptyString ls.

End Str.
Import Str.

(* ================================================================== *)
(** * Configuration and the status block *)
(* ================================================================== *)

Definition CONFLUENCE_BASE_URL : string := "https://altimetrik.atlassian.net/wiki".
Definition SPACE_KEY : string := "PA1".

(** The text the skip guard of [main] looks for. *)
Definition marker : string := "Ingestion &amp; Cleansing Lambda v2.0".

(** The separator [main] puts between the status block and the old body. *)
Definition separator : string := nl +++ nl.

(** The triple-quoted literal of [create_lambda_status_section], line by
    line; the literal opens with a line feed. *)
Definition status_lines : list string :=
  [
    "<ac:structured-macro ac:name=" +++ dq +++ "info" +++ dq +++ ">";
    "  <ac:rich-text-body>";
    "    <p><strong>Last Updated:</strong> October 3, 2025</p>";
    "    <p><strong>Author:</strong> Douglas Martins, Senior AI Engineer/Architect</p>";
    "  </ac:rich-text-body>";
    "</ac:structured-macro>";
    "";
    "<h2>🚀 Latest Updates - Ingestion &amp; Cleansing Lambda v2.0</h2>";
    "";
    "<ac:structured-macro ac:name=" +++ dq +++ "panel" +++ dq +++ " ac:schema-version=" +++ dq +++ "1" +++ dq +++ ">";
    "  <ac:parameter ac:name=" +++ dq +++ "bgColor" +++ dq +++ ">#deebff</ac:parameter>";
    "  <ac:rich-text-body>";
    "    <p><strong>✅ COMPLETED:</strong> Combined Ingestion &amp; Cleansing Lambda v2.0</p>";
    "    <ul>";
    "      <li>Atomic Bronze → Silver transformation in single transaction</li>";
    "      <li>25 TypeScript modules implementing data engineer's algorithm v0.2</li>";
    "      <li>Two-path processing (NEW insert-only, UPDATED upsert + soft-delete)</li>";
    "      <li>Complete versioning system with affected nodes/attributes tracking</li>";
    "      <li>Comprehensive test suite with sample data generation</li>";
    "    </ul>";
    "  </ac:rich-text-body>";
    "</ac:structured-macro>";
    "";
    "<h3>📦 Implementation Summary</h3>";
    "";
    "<table>";
    "  <tbody>";
    "    <tr>";
    "      <th>Component</th>";
    "      <th>Status</th>";
    "      <th>Files</th>";
    "      <th>Details</th>";
    "    </tr>";
    "    <tr>";
    "      <td><strong>Type Definitions</strong></td>";
    "      <td><ac:structured-macro ac:name=" +++ dq +++ "status" +++ dq +++ "><ac:parameter ac:name=" +++ dq +++ "color" +++ dq +++ ">Green</ac:parameter><ac:parameter ac:name=" +++ dq +++ "title" +++ dq +++ ">COMPLETE</ac:parameter></ac:structured-macro></td>";
    "      <td>4 files</td>";
    "      <td>Events, layouts, context, cache</td>";
    "    </tr>";
    "    <tr>";
    "      <td><strong>Utilities</strong></td>";
    "      <td><ac:structured-macro ac:name=" +++ dq +++ "status" +++ dq +++ "><ac:parameter ac:name=" +++ dq +++ "color" +++ dq +++ ">Green</ac:parameter><ac:parameter ac:name=" +++ dq +++ "title" +++ dq +++ ">COMPLETE</ac:parameter></ac:structured-macro></td>";
    "      <td>3 files</td>";
    "      <td>Normalization (§0), streams, constants</td>";
    "    </tr>";
    "    <tr>";
    "      <td><strong>Parsers</strong></td>";
    "      <td><ac:structured-macro ac:name=" +++ dq +++ "status" +++ dq +++ "><ac:parameter ac:name=" +++ dq +++ "color" +++ dq +++ ">Green</ac:parameter><ac:parameter ac:name=" +++ dq +++ "title" +++ dq +++ ">COMPLETE</ac:parameter></ac:structured-macro></td>";
    "      <td>4 files</td>";
    "      <td>Excel, API, layout, filename (§2.2, §4)</td>";
    "    </tr>";
    "    <tr>";
    "      <td><strong>Database Queries</strong></td>";
    "      <td><ac:structured-macro ac:name=" +++ dq +++ "status" +++ dq +++ "><ac:parameter ac:name=" +++ dq +++ "color" +++ dq +++ ">Green</ac:parameter><ac:parameter ac:name=" +++ dq +++ "title" +++ dq +++ ">COMPLETE</ac:parameter></ac:structured-macro></td>";
    "      <td>8 files</td>";
    "      <td>Load, bronze, silver, dictionaries (§6), versioning (§7A.3, §7B.5), reconciliation (§7B.3-4)</td>";
    "    </tr>";
    "    <tr>";
    "      <td><strong>Processors</strong></td>";
    "      <td><ac:structured-macro ac:name=" +++ dq +++ "status" +++ dq +++ "><ac:parameter ac:name=" +++ dq +++ "color" +++ dq +++ ">Green</ac:parameter><ac:parameter ac:name=" +++ dq +++ "title" +++ dq +++ ">COMPLETE</ac:parameter></ac:structured-macro></td>";
    "      <td>4 files</td>";
    "      <td>S3, API, row processor (§7), orchestrator (§1-§8)</td>";
    "    </tr>";
    "    <tr>";
    "      <td><strong>Test Suite</strong></td>";
    "      <td><ac:structured-macro ac:name=" +++ dq +++ "status" +++ dq +++ "><ac:parameter ac:name=" +++ dq +++ "color" +++ dq +++ ">Green</ac:parameter><ac:parameter ac:name=" +++ dq +++ "title" +++ dq +++ ">COMPLETE</ac:parameter></ac:structured-macro></td>";
    "      <td>3 files</td>";
    "      <td>Sample data generator, validator, local runner</td>";
    "    </tr>";
    "    <tr>";
    "      <td><strong>Documentation</strong></td>";
    "      <td><ac:structured-macro ac:name=" +++ dq +++ "status" +++ dq +++ "><ac:parameter ac:name=" +++ dq +++ "color" +++ dq +++ ">Green</ac:parameter><ac:parameter ac:name=" +++ dq +++ "title" +++ dq +++ ">COMPLETE</ac:parameter></ac:structured-macro></td>";
    "      <td>3 files</td>";
    "      <td>Lambda README, log retention strategy, master taxonomy attributes</td>";
    "    </tr>";
    "  </tbody>";
    "</table>";
    "";
    "<h3>🎯 Key Technical Features</h3>";
    "";
    "<ac:structured-macro ac:name=" +++ dq +++ "expand" +++ dq +++ ">";
    "  <ac:parameter ac:name=" +++ dq +++ "title" +++ dq +++ ">Technical Implementation Details</ac:parameter>";
    "  <ac:rich-text-body>";
    "    <h4>Two-Path Processing Logic</h4>";
    "    <ul>";
    "      <li><strong>NEW Load:</strong> Insert-only, no reactivation, creates Version 1</li>";
    "      <li><strong>UPDATED Load:</strong> Upsert with soft-delete reconciliation, creates Version N</li>";
    "    </ul>";
    "";
    "    <h4>Natural Key Constraints (Case-Insensitive)</h4>";
    "    <ul>";
    "      <li><strong>Nodes:</strong> (taxonomy_id, node_type_id, customer_id, LOWER(value))</li>";
    "      <li><strong>Attributes:</strong> (node_id, attribute_type_id, LOWER(value))</li>";
    "    </ul>";
    "";
    "    <h4>Append-Only Dictionaries</h4>";
    "    <ul>";
    "      <li>silver_taxonomies_nodes_types - never modified, only INSERT</li>";
    "      <li>silver_taxonomies_attribute_types - never modified, only INSERT</li>";
    "    </ul>";
    "";
    "    <h4>Complete Audit Trail</h4>";
    "    <ul>";
    "      <li>Row-level lineage with load_id and row_id</li>";
    "      <li>Row-level error tracking in load_details JSON</li>";
    "      <li>Version history with affected nodes/attributes</li>";
    "    </ul>";
    "  </ac:rich-text-body>";
    "</ac:structured-macro>";
    "";
    "<h3>📊 Project Status</h3>";
    "";
    "<ac:structured-macro ac:name=" +++ dq +++ "status" +++ dq +++ "><ac:parameter ac:name=" +++ dq +++ "color" +++ dq +++ ">Green</ac:parameter><ac:parameter ac:name=" +++ dq +++ "title" +++ dq +++ ">90% COMPLETE</ac:parameter></ac:structured-macro>";
    "";
    "<p><strong>GitHub Repository:</strong> <a href=" +++ dq +++ "https://github.com/AltimetrikAI/propelus_ai" +++ dq +++ ">https://github.com/AltimetrikAI/propelus_ai</a></p>";
    "";
    "<p><strong>Latest Commits:</strong></p>";
    "<ul>";
    "  <li><code>80b67bf</code> - Add all implementation modules (21 files, 1,389 lines)</li>";
    "  <li><code>0100a6d</code> - Combined Ingestion &amp; Cleansing Lambda v2.0 (14 files, 2,551 lines)</li>";
    "</ul>";
    "";
    "<h3>⏳ Next Steps</h3>";
    "";
    "<ac:structured-macro ac:name=" +++ dq +++ "panel" +++ dq +++ " ac:schema-version=" +++ dq +++ "1" +++ dq +++ ">";
    "  <ac:parameter ac:name=" +++ dq +++ "bgColor" +++ dq +++ ">#fffae6</ac:parameter>";
    "  <ac:rich-text-body>";
    "    <ol>";
    "      <li><strong>Database Migrations</strong> - Awaiting physical data model from Marcin (Monday)</li>";
    "      <li><strong>Integration Testing</strong> - Test with sample taxonomies (Social Work, Nurse Practitioners)</li>";
    "      <li><strong>Tuesday Walkthrough</strong> - Demo with Kristen's sample data</li>";
    "      <li><strong>Step Functions Update</strong> - Modify workflow to call combined Lambda</li>";
    "    </ol>";
    "  </ac:rich-text-body>";
    "</ac:structured-macro>";
    "";
    "<h3>📚 Documentation</h3>";
    "";
    "<ul>";
    "  <li><a href=" +++ dq +++ "https://github.com/AltimetrikAI/propelus_ai/blob/main/lambdas/ingestion_and_cleansing/README.md" +++ dq +++ ">Lambda README</a> - Architecture and usage guide</li>";
    "  <li><a href=" +++ dq +++ "https://github.com/AltimetrikAI/propelus_ai/blob/main/docs/LOG_RETENTION_STRATEGY.md" +++ dq +++ ">Log Retention Strategy</a> - Audit log compliance approach</li>";
    "  <li><a href=" +++ dq +++ "https://github.com/AltimetrikAI/propelus_ai/blob/main/lambdas/ingestion_and_cleansing/test/README.md" +++ dq +++ ">Test Suite README</a> - Sample data generation and testing</li>";
    "  <li><a href=" +++ dq +++ "https://github.com/AltimetrikAI/propelus_ai/blob/main/PROJECT_DOCUMENTATION.md" +++ dq +++ ">Project Documentation</a> - Complete system architecture</li>";
    "</ul>";
    "";
    "<hr/>"
  ].

Definition create_lambda_status_section : string :=
  Eval vm_compute in (nl +++ unlines status_lines).
Arguments create_lambda_status_section : simpl never.

(* ================================================================== *)
(** * Data exchanged with the service *)
(* ================================================================== *)

(** [params=] of a GET: a dict of query parameters, in insertion order. *)
Definition Params : Type := list (string * string).

(** One element of the listing's ["results"]: the two keys [main] reads. *)
Record PageSummary : Type := mkSummary {
  ps_id : string;
  ps_title : string
}.

(** The decoded body of a listing response: [data.get("results", [])] and
    the ["next"] entry of [data.get("_links", {})], when there is one. *)
Record Listing : Type := mkListing {
  results : list PageSummary;
  next_link : option string
}.

(** The decoded body of [GET content/{id}]; [main] reads
    [['version']['number']] and [['body']['storage']['value']]. *)
Record FullPage : Type := mkFullPage {
  fp_id : string;
  fp_title : string;
  fp_version : Z;
  fp_body : string
}.

(** What the body of [GET content/{id}] decodes to: a page, or [None] for a
    value that Python takes as false (an empty object and the like), the one
    thing [main] tests before it reads the page. *)
Definition PageJson : Type := option FullPage.

(** The [payload] dict of [update_page]. *)
Record Payload : Type := mkPayload {
  pl_version_number : Z;
  pl_version_message : string;
  pl_title : string;
  pl_type : string;
  pl_body_value : string;
  pl_body_representation : string
}.

(** A [requests.exceptions.RequestException]: what [str(e)] prints, and the
    text of [e.response] when the exception carries a response (an HTTP error
    status does, a connection failure does not). *)
Record RequestException : Type := mkExc {
  exc_str : string;
  exc_response : option string
}.

Definition Reply (A : Type) : Type := (RequestException + A)%type.

(** The three calls the script makes, each with [raise_for_status] folded
    in: the reply is the decoded body of the response, or the
    [RequestException] that the request or the status check raised.  The
    body of a listing is taken to decode to the shape the REST interface gives
    it; the body of a page to a page of that shape, or to a value that counts
    as false.  Every request also carries the constants [AUTH] and [HEADERS],
    which no function of the script varies. *)
Record Transport (W : Type) : Type := mkTransport {
  get_listing : string -> Params -> W -> Reply Listing * W;
  get_content : string -> Params -> W -> Reply PageJson * W;
  put_content : string -> Payload -> W -> Reply unit * W
}.
Arguments get_listing {W} _ _ _ _.
Arguments get_content {W} _ _ _ _.
Arguments put_content {W} _ _ _ _.

(** What an observer of a run sees: HTTP exchanges and printed lines. *)
Inductive Exchange : Type :=
| ExList (url : string) (params : Params) (reply : Reply Listing)
| ExFetch (url : string) (params : Params) (reply : Reply PageJson)
| ExPut (url : string) (payload : Payload) (reply : Reply unit).

Inductive Obs : Type :=
| Printed (line : string)
| Http (x : Exchange).

(* ================================================================== *)
(** * The monad of the script: state, trace, exceptions, fuel *)
(* ================================================================== *)

Inductive Outcome (A : Type) : Type :=
| Returns (a : A)
| Raises (e : RequestException)
| OutOfFuel.
Arguments Returns {A} a.
Arguments Raises {A} e.
Arguments OutOfFuel {A}.

Section Monad.

Context {W : Type}.

Record State : Type := mkState {
  world : W;
  trace : list Obs
}.

Definition M (A : Type) : Type := State -> Outcome A * State.

Definition ret {A} (a : A) : M A := fun s => (Returns a, s).

Definition bind {A B} (m : M A) (k : A -> M B) : M B :=
  fun s =>
    match m s with
    | (Returns a, s') => k a s'
    | (Raises e, s') => (Raises e, s')
    | (OutOfFuel, s') => (OutOfFuel, s')
    end.

Definition out_of_fuel {A} : M A := fun s => (OutOfFuel, s).

(** [try: m except requests.exceptions.RequestException as e: handler e]. *)
Definition try_except {A} (m : M A) (handler : RequestException -> M A) : M A :=
  fun s =>
    match m s with
    | (Raises e, s') => handler e s'
    | other => other
    end.

Definition emit (o : Obs) : M unit :=
  fun s => (Returns tt, mkState (world s) (trace s ++ [o])).

Definition print (line : string) : M unit := emit (Printed line).

Definition of_reply {A} (r : Reply A) : Outcome A :=
  match r with
  | inl e => Raises e
  | inr a => Returns a
  end.

(** [for x in xs: body x]. *)
Fixpoint for_each {A} (xs : list A) (body : A -> M unit) : M unit :=
  match xs with
  | [] => ret tt
  | x :: xs' => bind (body x) (fun _ => for_each xs' body)
  end.

(** [enumerate(xs, start)]. *)
Fixpoint enumerate {A} (xs : list A) (start : nat) : list (nat * A) :=
  match xs with
  | [] => []
  | x :: xs' => (start, x) :: enumerate xs' (S start)
  end.

End Monad.

Arguments State W : clear implicits.
Arguments M W A : clear implicits.

Declare Scope script_scope.
Delimit Scope script_scope with script.
Notation "x <- m ;; k" := (bind m (fun x => k))
  (at level 61, m at next level, right associativity) : script_scope.
Notation "m ;; k" := (bind m (fun _ => k))
  (at level 61, right associativity) : script_scope.
Open Scope script_scope.

Section Client.

Context {W : Type}.
Variable T : Transport W.

(** [requests.get(...)], [raise_for_status()], [.json()] of the listing. *)
Definition request_listing (url : string) (params : Params) : M W Listing :=
  fun s =>
    let '(r, w) := get_listing T url params (world s) in
    (of_reply r, mkState w (trace s ++ [Http (ExList url params r)])).

(** The same three steps on one page. *)
Definition request_content (url : string) (params : Params) : M W PageJson :=
  fun s =>
    let '(r, w) := get_content T url params (world s) in
    (of_reply r, mkState w (trace s ++ [Http (ExFetch url params r)])).

(** [requests.put(...)] and [raise_for_status()]. *)
Definition request_put (url : string) (payload : Payload) : M W unit :=
  fun s =>
    let '(r, w) := put_content T url payload (world s) in
    (of_reply r, mkState w (trace s ++ [Http (ExPut url payload r)])).

(* ================================================================== *)
(** * The script *)
(* ================================================================== *)

Definition content_url : string := CONFLUENCE_BASE_URL +++ "/rest/api/content".

Definition page_url (page_id : string) : string :=
  CONFLUENCE_BASE_URL +++ "/rest/api/content/" +++ page_id.

Definition listing_params (space_key : string) : Params :=
  [("spaceKey", space_key); ("limit", "100"); ("expand", "version,body.storage")].

Definition content_params : Params :=
  [("expand", "body.storage,version,space")].

(** The [while True] of [get_all_pages_in_space]: one request per turn,
    [all_pages.extend], then either the next link or [break]. *)
Fixpoint listing_loop (fuel : nat) (url : string) (params : Params)
    (all_pages : list PageSummary) : M W (list PageSummary) :=
  match fuel with
  | O => out_of_fuel
  | S fuel' =>
      data <- request_listing url params ;;
      let all_pages := all_pages ++ results data in
      match next_link data with
      | Some next => listing_loop fuel' (CONFLUENCE_BASE_URL +++ next) [] all_pages
      | None => ret all_pages
      end
  end.

Definition get_all_pages_in_space (fuel : nat) (space_key : string)
    : M W (list PageSummary) :=
  try_except
    (listing_loop fuel content_url (listing_params space_key) [])
    (fun e => print ("Error fetching pages: " +++ exc_str e) ;; ret []).

(** [return response.json()] as it is, and [return {}], which is [None], from
    the handler. *)
Definition get_page_content (page_id : string) : M W PageJson :=
  try_except
    (request_content (page_url page_id) content_params)
    (fun e =>
       print ("Error fetching page " +++ page_id +++ ": " +++ exc_str e) ;;
       ret None).

Definition update_message : string :=
  "Updated with latest Lambda implementation status".

Definition update_payload (title content : string) (version : Z) : Payload :=
  mkPayload (version + 1) update_message title "page" content "storage".

Definition update_page (page_id title content : string) (version : Z) : M W bool :=
  try_except
    (request_put (page_url page_id) (update_payload title content version) ;;
     print ("✅ Updated page: " +++ title) ;;
     ret true)
    (fun e =>
       print ("❌ Error updating page " +++ title +++ ": " +++ exc_str e) ;;
       match exc_response e with
       | Some text => print ("   Response: " +++ text)
       | None => ret tt
       end ;;
       ret false).

(** The body of the second [for] of [main]; [continue] ends the turn. *)
Definition main_loop_body (lambda_status_content : string) (page : PageSummary)
    : M W unit :=
  let page_id := ps_id page in
  let page_title := ps_title page in
  full_page <- get_page_content page_id ;;
  match full_page with
  | None => ret tt
  | Some full_page =>
      let current_version := fp_version full_page in
      let current_content := fp_body full_page in
      if str_in marker current_content then
        print ("⏭️  Skipping " +++ page_title +++ " (already has latest update)")
      else
        let updated_content :=
          lambda_status_content +++ separator +++ current_content in
        success <- update_page page_id page_title updated_content current_version ;;
        if success then
          print ("   Version: " +++ str_of_Z current_version +++ " → "
                 +++ str_of_Z (current_version + 1) +++ nl)
        else ret tt
  end.

Definition rule : string := str_mul "=" 60.

Definition main (fuel : nat) : M W unit :=
  print "🔍 Fetching pages from Confluence space..." ;;
  pages <- get_all_pages_in_space fuel SPACE_KEY ;;
  match pages with
  | [] => print "❌ No pages found or error occurred"
  | _ :: _ =>
      print ("✅ Found " +++ str_of_nat (length pages) +++ " pages in space "
             +++ SPACE_KEY +++ nl) ;;
      print "📄 Pages in space:" ;;
      for_each (enumerate pages 1)
        (fun '(i, page) =>
           print ("   " +++ str_of_nat i +++ ". " +++ ps_title page
                  +++ " (ID: " +++ ps_id page +++ ")")) ;;
      print (nl +++ rule) ;;
      print "📝 Updating pages with Lambda status..." ;;
      print (rule +++ nl) ;;
      let lambda_status_content := create_lambda_status_section in
      for_each pages (main_loop_body lambda_status_content) ;;
      print rule ;;
      print "✅ Confluence update complete!" ;;
      print rule
  end.

(** A run starts with nothing observed yet. *)
Definition start (w : W) : State W := mkState w [].

End Client.


(* ================================================================== *)
(** * Reading a trace *)
(* ================================================================== *)

(** The page summaries the listing responses of a trace delivered. *)
Definition listed (tr : list Obs) : list PageSummary :=
  flat_map (fun o =>
    match o with
    | Http (ExList _ _ (inr data)) => results data
    | _ => []
    end) tr.

(** The URLs fetched, in order. *)
Definition fetched (tr : list Obs) : list string :=
  flat_map (fun o =>
    match o with
    | Http (ExFetch url _ _) => [url]
    | _ => []
    end) tr.

(** The successful fetches: URL and decoded page. *)
Definition fetch_replies (tr : list Obs) : list (string * FullPage) :=
  flat_map (fun o =>
    match o with
    | Http (ExFetch url _ (inr (Some page))) => [(url, page)]
    | _ => []
    end) tr.

(** The update requests, in order. *)
Definition puts (tr : list Obs) : list (string * Payload) :=
  flat_map (fun o =>
    match o with
    | Http (ExPut url payload _) => [(url, payload)]
    | _ => []
    end) tr.

(** The replies to the update requests. *)
Definition put_replies (tr : list Obs) : list (Reply unit) :=
  flat_map (fun o =>
    match o with
    | Http (ExPut _ _ r) => [r]
    | _ => []
    end) tr.

Definition is_ok {A} (r : Reply A) : bool :=
  match r with
  | inl _ => false
  | inr _ => true
  end.

(** Did this observation go well?  Printed lines always do. *)
Definition obs_ok (o : Obs) : bool :=
  match o with
  | Printed _ => true
  | Http (ExList _ _ r) => is_ok r
  | Http (ExFetch _ _ r) => is_ok r
  | Http (ExPut _ _ r) => is_ok r
  end.

(** This observation is no update request. *)
Definition not_put (o : Obs) : Prop :=
  forall url payload r, o <> Http (ExPut url payload r).

(** This observation is no update request for the page [id]. *)
Definition not_put_to (id : string) (o : Obs) : Prop :=
  forall payload r, o <> Http (ExPut (page_url id) payload r).

(** The update requests for the page [id]. *)
Definition puts_to (id : string) (tr : list Obs) : list (string * Payload) :=
  filter (fun put => String.eqb (fst put) (page_url id)) (puts tr).

(** A fetched page still needs the banner. *)
Definition needs_update (fetch : string * FullPage) : bool :=
  negb (str_in marker (fp_body (snd fetch))).

(** What an update request carries besides the title. *)
Definition put_core (put : string * Payload)
    : string * Z * string * string * string * string :=
  (fst put, pl_version_number (snd put), pl_version_message (snd put),
   pl_type (snd put), pl_body_value (snd put), pl_body_representation (snd put)).

(** The update that answers a fetch, title apart. *)
Definition expected_put (fetch : string * FullPage)
    : string * Z * string * string * string * string :=
  (fst fetch, (fp_version (snd fetch) + 1)%Z, update_message, "page",
   create_lambda_status_section +++ separator +++ fp_body (snd fetch), "storage").

(** The lines [update_page] prints after the request. *)
Definition update_log (title : string) (r : Reply unit) : list Obs :=
  match r with
  | inr _ => [Printed ("✅ Updated page: " +++ title)]
  | inl e =>
      Printed ("❌ Error updating page " +++ title +++ ": " +++ exc_str e)
      :: match exc_response e with
         | Some text => [Printed ("   Response: " +++ text)]
         | None => []
         end
  end.

(** What one turn of the update loop adds to the trace, by the replies it
    got: a failed fetch, a body that Python takes as false, a page that has
    the marker, a write. *)
Inductive turn (p : PageSummary) : list Obs -> Prop :=
| turn_absent e :
    turn p
      [Http (ExFetch (page_url (ps_id p)) content_params (inl e));
       Printed ("Error fetching page " +++ ps_id p +++ ": " +++ exc_str e)]
| turn_empty :
    turn p [Http (ExFetch (page_url (ps_id p)) content_params (inr None))]
| turn_skipped page :
    str_in marker (fp_body page) = true ->
    turn p
      [Http (ExFetch (page_url (ps_id p)) content_params (inr (Some page)));
       Printed ("⏭️  Skipping " +++ ps_title p +++ " (already has latest update)")]
| turn_written page r :
    str_in marker (fp_body page) = false ->
    turn p
      (Http (ExFetch (page_url (ps_id p)) content_params (inr (Some page)))
       :: Http (ExPut (page_url (ps_id p))
                  (update_payload (ps_title p)
                     (create_lambda_status_section +++ separator +++ fp_body page)
                     (fp_version page))
                  r)
       :: update_log (ps_title p) r
       ++ (if is_ok r then
             [Printed ("   Version: " +++ str_of_Z (fp_version page) +++ " → "
                       +++ str_of_Z (fp_version page + 1) +++ nl)]
           else [])).

Inductive turns : list PageSummary -> list Obs -> Prop :=
| turns_nil : turns [] []
| turns_cons p ps t ts : turn p t -> turns ps ts -> turns (p :: ps) (t ++ ts).

(** The lines [main] prints around the update loop. *)
Definition banner : Obs := Printed "🔍 Fetching pages from Confluence space...".

Definition no_pages : Obs := Printed "❌ No pages found or error occurred".

Definition listing_error (e : RequestException) : Obs :=
  Printed ("Error fetching pages: " +++ exc_str e).

Definition page_line (entry : nat * PageSummary) : Obs :=
  Printed ("   " +++ str_of_nat (fst entry) +++ ". " +++ ps_title (snd entry)
           +++ " (ID: " +++ ps_id (snd entry) +++ ")").

Definition header (pages : list PageSummary) : list Obs :=
  [Printed ("✅ Found " +++ str_of_nat (length pages) +++ " pages in space "
            +++ SPACE_KEY +++ nl);
   Printed "📄 Pages in space:"]
  ++ map page_line (enumerate pages 1)
  ++ [Printed (nl +++ rule);
      Printed "📝 Updating pages with Lambda status...";
      Printed (rule +++ nl)].

Definition footer : list Obs :=
  [Printed rule; Printed "✅ Confluence update complete!"; Printed rule].

(** No page is fetched or written in these observations. *)
Definition quiet (tr : list Obs) : Prop :=
  Forall (fun o =>
    match o with
    | Printed _ => True
    | Http (ExList _ _ _) => True
    | Http _ => False
    end) tr.

(** The traces a run can leave, by its outcome: cut off in the listing,
    listing failed, nothing listed, or the update loop over what was
    listed. *)
Inductive run_trace : Outcome unit -> list Obs -> Prop :=
| run_cut xs :
    quiet xs -> run_trace OutOfFuel (banner :: xs)
| run_failed xs e :
    quiet xs ->
    run_trace (Returns tt) (banner :: xs ++ [listing_error e; no_pages])
| run_empty xs :
    quiet xs -> listed xs = [] ->
    run_trace (Returns tt) (banner :: xs ++ [no_pages])
| run_updates xs tr :
    quiet xs -> listed xs <> [] -> fetched xs = [] -> turns (listed xs) tr ->
    run_trace (Returns tt) (banner :: xs ++ header (listed xs) ++ tr ++ footer).

(** The listing requests of a trace, each with its reply. *)
Definition listing_requests (tr : list Obs)
    : list (string * Params * Reply Listing) :=
  flat_map (fun o =>
    match o with
    | Http (ExList url params r) => [(url, params, r)]
    | _ => []
    end) tr.

(** The lines printed, in order. *)
Definition printed (tr : list Obs) : list string :=
  flat_map (fun o =>
    match o with
    | Printed line => [line]
    | Http _ => []
    end) tr.

Definition is_put (o : Obs) : bool :=
  match o with
  | Http (ExPut _ _ _) => true
  | _ => false
  end.

Definition is_fetch (o : Obs) : bool :=
  match o with
  | Http (ExFetch _ _ _) => true
  | _ => false
  end.

Definition is_listing (o : Obs) : bool :=
  match o with
  | Http (ExList _ _ _) => true
  | _ => false
  end.

Definition is_failed_listing (o : Obs) : bool :=
  match o with
  | Http (ExList _ _ (inl _)) => true
  | _ => false
  end.

(** Listing requests that start at [url] with [params] and go on, each to
    the base URL followed by the link of the reply before and with no
    parameters, for as long as the replies carry a link; nothing follows a
    failure or a reply without a link.  The chain may break off early. *)
Fixpoint follows (url : string) (params : Params)
    (xs : list (string * Params * Reply Listing)) : Prop :=
  match xs with
  | [] => True
  | (u, q, r) :: rest =>
      u = url /\ q = params
      /\ match r with
         | inl _ => rest = []
         | inr data =>
             match next_link data with
             | Some next => follows (CONFLUENCE_BASE_URL +++ next) [] rest
             | None => rest = []
             end
         end
  end.

(** The lines [main] prints after a write, by its reply. *)
Definition write_report (title : string) (version : Z) (r : Reply unit)
    : list Obs :=
  update_log title r
  ++ (if is_ok r then
        [Printed ("   Version: " +++ str_of_Z version +++ " → "
                  +++ str_of_Z (version + 1) +++ nl)]
      else []).

(** What is left of a run once a turn of the update loop is over: the turns
    of the pages still to come, then the closing lines. *)
Definition rest_of_run (rest : list Obs) : Prop :=
  exists later ts, turns later ts /\ rest = ts ++ footer.

(** What stands right after a fetch, by its reply: the error line, or
    nothing at all when the body counts as false, or the line that the page is
    skipped, or the update request and its report; and then the rest of the
    run. *)
Definition after_fetch (p : PageSummary) (url : string) (r : Reply PageJson)
    (post : list Obs) : Prop :=
  match r with
  | inl e =>
      exists rest,
        post = Printed ("Error fetching page " +++ ps_id p +++ ": " +++ exc_str e)
               :: rest
        /\ rest_of_run rest
  | inr None => rest_of_run post
  | inr (Some page) =>
      if str_in marker (fp_body page) then
        exists rest,
          post = Printed ("⏭️  Skipping " +++ ps_title p
                          +++ " (already has latest update)") :: rest
          /\ rest_of_run rest
      else
        exists reply rest,
          post = Http (ExPut url
                         (mkPayload (fp_version page + 1) update_message
                            (ps_title p) "page"
                            (create_lambda_status_section +++ separator
                             +++ fp_body page)
                            "storage")
                         reply)
                 :: write_report (ps_title p) (fp_version page) reply ++ rest
          /\ rest_of_run rest
  end.

(** How a listing conversation closes. *)
Inductive Ending : Type :=
| Ended
| Failed (e : RequestException).

Section Conversation.

Context {W : Type}.
Variable T : Transport W.

(** The conversation the service holds with a client that starts at [url]
    and follows every [next] link: it closes with the first response that
    has no link, or with the first failure. *)
Inductive conversation
    : string -> Params -> W -> list Obs -> Ending -> W -> Prop :=
| conv_failed url params w e w' :
    get_listing T url params w = (inl e, w') ->
    conversation url params w [Http (ExList url params (inl e))] (Failed e) w'
| conv_last url params w data w' :
    get_listing T url params w = (inr data, w') ->
    next_link data = None ->
    conversation url params w [Http (ExList url params (inr data))] Ended w'
| conv_next url params w data w' next xs ending w'' :
    get_listing T url params w = (inr data, w') ->
    next_link data = Some next ->
    conversation (CONFLUENCE_BASE_URL +++ next) [] w' xs ending w'' ->
    conversation url params w
      (Http (ExList url params (inr data)) :: xs) ending w''.

End Conversation.

(* ================================================================== *)
(** * A fixture service *)
(* ================================================================== *)

(** Modelled from the spec: the remote content service, which is no part
    of the repository.  The model is deterministic and follows the REST
    interface the script talks to: a store of pages that the listing
    enumerates in chunks and links by [next]; a fetch by id; and a write that
    is accepted only when it carries the stored version plus one and then
    replaces title, version and body.  Transport failures are scheduled: the
    head of [faults] decides the fate of the next request, whatever the
    request is, so that every combination of failures in a run is some
    schedule. *)
Module Fixture.

Record Page : Type := mkPage {
  page_id : string;
  page_title : string;
  page_version : Z;
  page_body : string
}.

Record World : Type := mkWorld {
  pages : list Page;
  (** pages per listing response, less one *)
  chunk : nat;
  faults : list (option RequestException)
}.

Definition summary (p : Page) : PageSummary :=
  mkSummary (page_id p) (page_title p).

Definition full_page (p : Page) : FullPage :=
  mkFullPage (page_id p) (page_title p) (page_version p) (page_body p).

(** [strip p s] is [Some r] when [s = p +++ r]. *)
Fixpoint strip (p s : string) : option string :=
  match p with
  | EmptyString => Some s
  | String a p' =>
      match s with
      | EmptyString => None
      | String b s' => if Ascii.eqb a b then strip p' s' else None
      end
  end.

Definition next_path (start : nat) : string :=
  "/rest/api/content?start=" +++ str_of_nat start.

(** The offset a listing URL asks for. *)
Definition listing_start (url : string) : option nat :=
  if String.eqb url content_url then Some 0
  else
    match strip (content_url +++ "?start=") url with
    | Some digits =>
        match NilZero.uint_of_string digits with
        | Some d => Some (Nat.of_uint d)
        | None => None
        end
    | None => None
    end.

Definition listing_at (w : World) (start : nat) : Listing :=
  let stop := start + S (chunk w) in
  mkListing
    (map summary (firstn (S (chunk w)) (skipn start (pages w))))
    (if Nat.ltb stop (List.length (pages w)) then Some (next_path stop) else None).

Definition lookup (id : string) (w : World) : option Page :=
  find (fun p => String.eqb (page_id p) id) (pages w).

Fixpoint store (id : string) (new : Page) (ps : list Page) : list Page :=
  match ps with
  | [] => []
  | p :: ps' =>
      if String.eqb (page_id p) id then new :: ps' else p :: store id new ps'
  end.

Definition not_found (url : string) : RequestException :=
  mkExc ("404 Client Error: Not Found for url: " +++ url) (Some "not found").

Definition conflict (url : string) : RequestException :=
  mkExc ("409 Client Error: Conflict for url: " +++ url) (Some "version conflict").

(** The fault scheduled for the next request, and the service after it. *)
Definition next_fault (w : World) : option RequestException * World :=
  match faults w with
  | [] => (None, w)
  | f :: fs => (f, mkWorld (pages w) (chunk w) fs)
  end.

Definition serve {A} (w : World) (answer : World -> Reply A * World)
    : Reply A * World :=
  match next_fault w with
  | (Some e, w') => (inl e, w')
  | (None, w') => answer w'
  end.

Definition fx_get_listing (url : string) (_ : Params) (w : World)
    : Reply Listing * World :=
  serve w (fun w' =>
    match listing_start url with
    | Some start => (inr (listing_at w' start), w')
    | None => (inl (not_found url), w')
    end).

Definition fx_get_content (url : string) (_ : Params) (w : World)
    : Reply PageJson * World :=
  serve w (fun w' =>
    match strip (content_url +++ "/") url with
    | Some id =>
        match lookup id w' with
        | Some p => (inr (Some (full_page p)), w')
        | None => (inl (not_found url), w')
        end
    | None => (inl (not_found url), w')
    end).

Definition fx_put_content (url : string) (payload : Payload) (w : World)
    : Reply unit * World :=
  serve w (fun w' =>
    match strip (content_url +++ "/") url with
    | Some id =>
        match lookup id w' with
        | Some p =>
            if (pl_version_number payload =? page_version p + 1)%Z then
              (inr tt,
               mkWorld
                 (store id
                    (mkPage id (pl_title payload) (pl_version_number payload)
                       (pl_body_value payload))
                    (pages w'))
                 (chunk w') (faults w'))
            else (inl (conflict url), w')
        | None => (inl (not_found url), w')
        end
    | None => (inl (not_found url), w')
    end).

Definition transport : Transport World :=
  mkTransport World fx_get_listing fx_get_content fx_put_content.

(** Every page the service would serve has the marker in its body. *)
Definition all_marked (w : World) : Prop :=
  forall id p, lookup id w = Some p -> str_in marker (page_body p) = true.

(** The service serves a page with the marker under this id. *)
Definition marked (w : World) (id : string) : Prop :=
  exists p, lookup id w = Some p /\ str_in marker (page_body p) = true.

(** A run of the script against the fixture. *)
Definition run (fuel : nat) (w : World) : Outcome unit * State World :=
  main transport fuel (start w).

(** The scenario of the specification: page A without the banner at
    version 3, page B with the marker in its body at version 5. *)
Definition page_A : Page := mkPage "1001" "Page A" 3 "<p>old</p>".
Definition page_B : Page :=
  mkPage "1002" "Page B" 5 ("<h2>Latest Updates - " +++ marker +++ "</h2>").
Definition two_pages : World := mkWorld [page_A; page_B] 0 [].

(** Further stores and failure schedules that runs are computed on. *)
Definition page_C : Page := mkPage "1003" "Page C" 1 "<p>notes</p>".

Definition connection_aborted : RequestException :=
  mkExc "Connection aborted." None.

Definition server_error : RequestException :=
  mkExc "500 Server Error: Internal Server Error" (Some "<html>oops</html>").

(** Three pages, listed one per response, nothing fails. *)
Definition three_chunks : World := mkWorld [page_A; page_B; page_C] 0 [].

(** The second listing response fails. *)
Definition broken_listing : World :=
  mkWorld [page_A; page_B; page_C] 0 [None; Some server_error].

(** The listing succeeds, the fetch of page A fails. *)
Definition broken_fetch : World :=
  mkWorld [page_A; page_C] 1 [None; Some connection_aborted].

(** The listing and the fetch of page A succeed, its write fails. *)
Definition broken_write : World :=
  mkWorld [page_A; page_C] 1 [None; None; Some server_error].

End Fixture.

(** A service whose listing never ends: every response is empty and links
    to itself.  Pages are out of reach. *)
Definition endless_listing : Transport unit :=
  mkTransport unit
    (fun _ _ w => (inr (mkListing [] (Some "/rest/api/content?start=0")), w))
    (fun url _ w => (inl (Fixture.not_found url), w))
    (fun url _ w => (inl (Fixture.not_found url), w)).

(** Further stores: no page at all, and two pages whose writes both fail. *)
Definition empty_space : Fixture.World := Fixture.mkWorld [] 0 [].

Definition all_writes_fail : Fixture.World :=
  Fixture.mkWorld [Fixture.page_A; Fixture.page_C] 1
    [None; None; Some Fixture.server_error; None; Some Fixture.connection_aborted].



(* ================================================================== *)
(** * Facts about strings *)
(* ================================================================== *)

Lemma append_assoc (a b c : string) : (a +++ b) +++ c = a +++ b +++ c.
Proof.
  induction a as [|x a IH]; simpl; [reflexivity | now rewrite IH].
Qed.

Lemma append_inv_head (a b c : string) : a +++ b = a +++ c -> b = c.
Proof.
  induction a as [|x a IH]; simpl; intros H; [exact H|].
  injection H as H. auto.
Qed.

Lemma prefix_spec (n h : string) :
  String.prefix n h = true <-> exists b, h = n +++ b.
Proof.
  revert h. induction n as [|x n IH]; intros h.
  - split; [intros _; exists h; reflexivity | intros _; now destruct h].
  - destruct h as [|y h]; simpl.
    + split; [discriminate | intros [b Hb]; discriminate].
    + destruct (ascii_dec x y) as [->|Hxy].
      * rewrite IH. split; intros [b Hb]; exists b.
        -- now rewrite Hb.
        -- now injection Hb.
      * split; [discriminate | intros [b Hb]].
        injection Hb as Hy _. congruence.
Qed.

(** The guard of [main] is plain substring containment. *)
Lemma str_in_spec (n h : string) :
  str_in n h = true <-> exists a b, h = a +++ n +++ b.
Proof.
  split.
  - induction h as [|c h IH]; cbn [str_in]; intros H;
      apply orb_true_iff in H as [H|H].
    + apply prefix_spec in H as [b Hb]. now exists "", b.
    + discriminate.
    + apply prefix_spec in H as [b Hb]. now exists "", b.
    + destruct (IH H) as (a & b & ->). now exists (String c a), b.
  - intros (a & b & ->). induction a as [|c a IH].
    + destruct (n +++ b) eqn:E; cbn [str_in]; apply orb_true_iff; left;
        apply prefix_spec; exists b; now rewrite <- E.
    + change (String c a +++ n +++ b) with (String c (a +++ n +++ b)).
      cbn [str_in]. rewrite IH. apply orb_true_r.
Qed.

Lemma str_in_append_l (n a b : string) :
  str_in n a = true -> str_in n (a +++ b) = true.
Proof.
  rewrite !str_in_spec. intros (x & y & ->).
  exists x, (y +++ b). now rewrite !append_assoc.
Qed.

Example str_in_examples :
  str_in "ell" "hello" = true /\ str_in "" "" = true
  /\ str_in "lo!" "hello" = false /\ str_in marker "<p>old</p>" = false.
Proof. repeat split. Qed.

Example str_of_examples :
  str_of_nat 0 = "0" /\ str_of_nat 12 = "12"
  /\ str_of_Z 3 = "3" /\ str_of_Z (-40) = "-40" /\ str_mul "=" 3 = "===".
Proof. repeat split. Qed.

Lemma to_uint_nonnil (n : nat) : Nat.to_uint n <> Decimal.Nil.
Proof.
  rewrite <- (DecimalNat.Unsigned.of_to n) at 1.
  rewrite DecimalNat.Unsigned.to_of. apply DecimalFacts.unorm_nonnil.
Qed.

(** Reading back what [str] printed. *)
Lemma uint_of_str_of_nat (n : nat) :
  NilZero.uint_of_string (str_of_nat n) = Some (Nat.to_uint n).
Proof.
  unfold str_of_nat. apply NilZero.usu, to_uint_nonnil.
Qed.

(* ================================================================== *)
(** * Facts about traces *)
(* ================================================================== *)

Lemma listed_app (a b : list Obs) : listed (a ++ b) = listed a ++ listed b.
Proof. apply flat_map_app. Qed.

Lemma fetched_app (a b : list Obs) : fetched (a ++ b) = fetched a ++ fetched b.
Proof. apply flat_map_app. Qed.

Lemma fetch_replies_app (a b : list Obs) :
  fetch_replies (a ++ b) = fetch_replies a ++ fetch_replies b.
Proof. apply flat_map_app. Qed.

Lemma puts_app (a b : list Obs) : puts (a ++ b) = puts a ++ puts b.
Proof. apply flat_map_app. Qed.

Lemma quiet_app (a b : list Obs) : quiet a -> quiet b -> quiet (a ++ b).
Proof. intros Ha Hb. apply Forall_app. now split. Qed.

Lemma quiet_silent (tr : list Obs) :
  quiet tr -> fetched tr = [] /\ fetch_replies tr = [] /\ puts tr = []
              /\ put_replies tr = [].
Proof.
  induction 1 as [|o tr Ho _ (IH1 & IH2 & IH3 & IH4)]; [now repeat split|].
  destruct o as [line|[u q r|u q r|u q r]]; try contradiction;
    cbn; repeat split; assumption.
Qed.

Lemma quiet_printed (f : nat * PageSummary -> Obs) (l : list (nat * PageSummary)) :
  (forall x, exists line, f x = Printed line) -> quiet (map f l).
Proof.
  intros Hf. induction l as [|x l IH]; constructor; [|exact IH].
  destruct (Hf x) as [line ->]. exact I.
Qed.

Lemma quiet_header (pages : list PageSummary) : quiet (header pages).
Proof.
  unfold header. repeat apply quiet_app.
  - repeat constructor.
  - apply quiet_printed. intros x. eexists. reflexivity.
  - repeat constructor.
Qed.

Lemma quiet_footer : quiet footer.
Proof. repeat constructor. Qed.

Lemma update_log_quiet (title : string) (r : Reply unit) : quiet (update_log title r).
Proof.
  destruct r as [e|u]; cbn; [destruct (exc_response e)|]; repeat constructor.
Qed.

Lemma turn_tail_quiet (title : string) (r : Reply unit) (line : string) :
  quiet (update_log title r ++ (if is_ok r then [Printed line] else [])).
Proof.
  apply quiet_app; [apply update_log_quiet|].
  destruct (is_ok r); repeat constructor.
Qed.

(** The writes of the update loop are exactly the answers to the fetches
    that came back without the marker, one each and in the same order. *)
Lemma turn_puts (p : PageSummary) (t : list Obs) :
  turn p t ->
  map put_core (puts t) = map expected_put (filter needs_update (fetch_replies t)).
Proof.
  intros [e| |page Hm|page r Hm].
  - reflexivity.
  - reflexivity.
  - cbn. unfold needs_update; cbn. rewrite Hm. reflexivity.
  - change (Http ?a :: Http ?b :: ?l) with ([Http a; Http b] ++ l).
    rewrite puts_app, fetch_replies_app.
    destruct (quiet_silent _ (turn_tail_quiet (ps_title p) r
      ("   Version: " +++ str_of_Z (fp_version page) +++ " → "
       +++ str_of_Z (fp_version page + 1) +++ nl))) as (_ & -> & -> & _).
    cbn - [create_lambda_status_section]. unfold needs_update.
    cbn - [create_lambda_status_section]. rewrite Hm. reflexivity.
Qed.

Lemma turns_puts (ps : list PageSummary) (tr : list Obs) :
  turns ps tr ->
  map put_core (puts tr) = map expected_put (filter needs_update (fetch_replies tr)).
Proof.
  induction 1 as [|p ps t ts Ht _ IH]; [reflexivity|].
  rewrite puts_app, fetch_replies_app, filter_app, !map_app, IH.
  now rewrite (turn_puts p t Ht).
Qed.

(* ================================================================== *)
(** * The functions of the script, one by one *)
(* ================================================================== *)

Section ClientFacts.

Context {W : Type}.
Variable T : Transport W.

Local Abbreviation body := (main_loop_body T create_lambda_status_section).

(** [get_page_content]: what the body decoded to, or the absent value and
    one error line. *)
Lemma get_page_content_run (page_id : string) (s : State W) r w' :
  get_content T (page_url page_id) content_params (world s) = (r, w') ->
  get_page_content T page_id s =
    (Returns (match r with inl _ => None | inr json => json end),
     mkState w'
       (trace s
        ++ Http (ExFetch (page_url page_id) content_params r)
           :: match r with
              | inl e => [Printed ("Error fetching page " +++ page_id +++ ": "
                                   +++ exc_str e)]
              | inr _ => []
              end)).
Proof.
  intros H. unfold get_page_content, try_except, bind, request_content.
  rewrite H. destruct r as [e|json]; cbn [of_reply].
  - unfold print, emit, ret; cbn [world trace]. now rewrite <- app_assoc.
  - reflexivity.
Qed.

(** [update_page]: one request, the log lines, the success flag. *)
Lemma update_page_run (page_id title content : string) (version : Z)
    (s : State W) r w' :
  put_content T (page_url page_id) (update_payload title content version)
    (world s) = (r, w') ->
  update_page T page_id title content version s =
    (Returns (is_ok r),
     mkState w'
       (trace s
        ++ Http (ExPut (page_url page_id)
                   (update_payload title content version) r)
           :: update_log title r)).
Proof.
  intros H. unfold update_page, try_except, bind, request_put.
  rewrite H. destruct r as [e|[]]; cbn [of_reply is_ok update_log].
  - unfold print, emit, ret; cbn [world trace].
    destruct (exc_response e); cbn [world trace]; now rewrite <- !app_assoc.
  - unfold print, emit, ret; cbn [world trace]. now rewrite <- app_assoc.
Qed.

(** The four ways one turn of the update loop can go. *)
Lemma turn_absent_run (p : PageSummary) (s : State W) e w' :
  get_content T (page_url (ps_id p)) content_params (world s) = (inl e, w') ->
  body p s =
    (Returns tt,
     mkState w'
       (trace s
        ++ [Http (ExFetch (page_url (ps_id p)) content_params (inl e));
            Printed ("Error fetching page " +++ ps_id p +++ ": " +++ exc_str e)])).
Proof.
  intros H. unfold main_loop_body, bind.
  now rewrite (get_page_content_run _ _ _ _ H).
Qed.

Lemma turn_empty_run (p : PageSummary) (s : State W) w' :
  get_content T (page_url (ps_id p)) content_params (world s) = (inr None, w') ->
  body p s =
    (Returns tt,
     mkState w'
       (trace s
        ++ [Http (ExFetch (page_url (ps_id p)) content_params (inr None))])).
Proof.
  intros H. unfold main_loop_body, bind.
  now rewrite (get_page_content_run _ _ _ _ H).
Qed.

Lemma turn_skipped_run (p : PageSummary) (s : State W) page w' :
  get_content T (page_url (ps_id p)) content_params (world s) = (inr (Some page), w') ->
  str_in marker (fp_body page) = true ->
  body p s =
    (Returns tt,
     mkState w'
       (trace s
        ++ [Http (ExFetch (page_url (ps_id p)) content_params (inr (Some page)));
            Printed ("⏭️  Skipping " +++ ps_title p
                     +++ " (already has latest update)")])).
Proof.
  intros H Hm. unfold main_loop_body, bind.
  rewrite (get_page_content_run _ _ _ _ H), Hm.
  unfold print, emit; cbn [world trace]. now rewrite <- app_assoc.
Qed.

Lemma turn_written_run (p : PageSummary) (s : State W) page w' r w'' :
  get_content T (page_url (ps_id p)) content_params (world s) = (inr (Some page), w') ->
  str_in marker (fp_body page) = false ->
  put_content T (page_url (ps_id p))
    (update_payload (ps_title p)
       (create_lambda_status_section +++ separator +++ fp_body page)
       (fp_version page)) w' = (r, w'') ->
  body p s =
    (Returns tt,
     mkState w''
       (trace s
        ++ Http (ExFetch (page_url (ps_id p)) content_params (inr (Some page)))
           :: Http (ExPut (page_url (ps_id p))
                      (update_payload (ps_title p)
                         (create_lambda_status_section +++ separator
                          +++ fp_body page)
                         (fp_version page))
                      r)
           :: update_log (ps_title p) r
           ++ (if is_ok r then
                 [Printed ("   Version: " +++ str_of_Z (fp_version page) +++ " → "
                           +++ str_of_Z (fp_version page + 1) +++ nl)]
               else []))).
Proof.
  intros H Hm Hp. unfold main_loop_body, bind.
  rewrite (get_page_content_run _ _ _ _ H), Hm.
  rewrite (update_page_run _ _ _ _ (mkState w' _) r w'' Hp).
  destruct r as [e|[]]; cbn [is_ok]; unfold print, emit, ret; cbn [world trace].
  - now rewrite app_nil_r, <- app_assoc.
  - now rewrite <- !app_assoc.
Qed.

(** Whatever the service answers, a turn returns, and what it adds to the
    trace is one of the four shapes of [turn]. *)
Lemma body_turn (p : PageSummary) (s : State W) :
  exists s' t, body p s = (Returns tt, s') /\ trace s' = trace s ++ t /\ turn p t.
Proof.
  destruct (get_content T (page_url (ps_id p)) content_params (world s))
    as [[e|[page|]] w'] eqn:Hf.
  - eexists _, _. split; [apply (turn_absent_run _ _ _ _ Hf)|].
    split; [reflexivity | constructor].
  - destruct (str_in marker (fp_body page)) eqn:Hm.
    + eexists _, _. split; [apply (turn_skipped_run _ _ _ _ Hf Hm)|].
      split; [reflexivity | now constructor].
    + destruct (put_content T (page_url (ps_id p))
                  (update_payload (ps_title p)
                     (create_lambda_status_section +++ separator +++ fp_body page)
                     (fp_version page)) w') as [r w''] eqn:Hp.
      eexists _, _. split; [apply (turn_written_run _ _ _ _ _ _ Hf Hm Hp)|].
      split; [reflexivity | now constructor].
  - eexists _, _. split; [apply (turn_empty_run _ _ _ Hf)|].
    split; [reflexivity | constructor].
Qed.

(** The update loop gives every page of its list a turn, in order. *)
Lemma loop_turns (ps : list PageSummary) (s : State W) :
  exists s' tr,
    for_each ps body s = (Returns tt, s') /\ trace s' = trace s ++ tr /\ turns ps tr.
Proof.
  revert s. induction ps as [|p ps IH]; intros s.
  - exists s, []. cbn. rewrite app_nil_r. repeat split. constructor.
  - destruct (body_turn p s) as (s1 & t & Hb & Ht & Hturn).
    destruct (IH s1) as (s2 & ts & Hl & Hts & Hturns).
    exists s2, (t ++ ts). cbn [for_each]. unfold bind at 1. rewrite Hb.
    split; [exact Hl|]. split; [|now constructor].
    now rewrite Hts, Ht, app_assoc.
Qed.

(** ** The listing *)

(** With fuel for every exchange of the conversation, the loop holds exactly
    that conversation and hands back the results in the order received. *)
Lemma listing_loop_conversation url params w xs ending w' :
  conversation T url params w xs ending w' ->
  forall fuel acc tr,
    length xs <= fuel ->
    listing_loop T fuel url params acc (mkState w tr) =
      (match ending with
       | Ended => Returns (acc ++ listed xs)
       | Failed e => Raises e
       end,
       mkState w' (tr ++ xs)).
Proof.
  induction 1 as [url params w e w' Hg | url params w data w' Hg Hn
                  | url params w data w' next xs ending w'' Hg Hn _ IH];
    intros [|fuel] acc tr Hfuel; cbn [length] in Hfuel; try lia;
    cbn [listing_loop]; unfold bind, request_listing; cbn [world trace];
    rewrite Hg; cbn [of_reply].
  - reflexivity.
  - rewrite Hn. unfold ret. cbn [listed flat_map]. now rewrite app_nil_r.
  - rewrite Hn, IH by lia.
    change (listed (Http (ExList url params (inr data)) :: xs))
      with (results data ++ listed xs).
    now rewrite <- !app_assoc.
Qed.

(** Whatever the fuel, the loop only talks to the listing, and what it
    returns is what the responses delivered. *)
Lemma listing_loop_shape fuel url params acc (s : State W) :
  exists xs,
    trace (snd (listing_loop T fuel url params acc s)) = trace s ++ xs
    /\ quiet xs
    /\ forall ps, fst (listing_loop T fuel url params acc s) = Returns ps ->
                  ps = acc ++ listed xs.
Proof.
  revert url params acc s. induction fuel as [|fuel IH]; intros url params acc s.
  - exists []. cbn. rewrite app_nil_r. repeat split; [constructor | discriminate].
  - cbn [listing_loop]. unfold bind, request_listing.
    destruct (get_listing T url params (world s)) as [[e|data] w'] eqn:Hg;
      cbn [of_reply].
    + exists [Http (ExList url params (inl e))]. cbn [fst snd trace].
      repeat split; [repeat constructor | discriminate].
    + destruct (next_link data) as [next|] eqn:Hn.
      * destruct (IH (CONFLUENCE_BASE_URL +++ next) [] (acc ++ results data)
                    (mkState w' (trace s ++ [Http (ExList url params (inr data))])))
          as (xs & Htr & Hq & Hps).
        exists (Http (ExList url params (inr data)) :: xs).
        split; [|split].
        -- rewrite Htr. cbn [trace]. now rewrite <- app_assoc.
        -- constructor; [exact I | exact Hq].
        -- intros ps Hret. rewrite (Hps ps Hret).
           change (listed (Http (ExList url params (inr data)) :: xs))
             with (results data ++ listed xs).
           now rewrite app_assoc.
      * exists [Http (ExList url params (inr data))]. unfold ret. cbn [fst snd trace].
        repeat split; [repeat constructor|].
        intros ps [= <-]. cbn [listed flat_map]. now rewrite app_nil_r.
Qed.

(** [get_all_pages_in_space] on a conversation that fits the fuel. *)
Lemma get_all_pages_run key w xs ending w' fuel tr :
  conversation T content_url (listing_params key) w xs ending w' ->
  length xs <= fuel ->
  get_all_pages_in_space T fuel key (mkState w tr) =
    (Returns (match ending with Ended => listed xs | Failed _ => [] end),
     mkState w'
       (tr ++ xs
        ++ match ending with Ended => [] | Failed e => [listing_error e] end)).
Proof.
  intros Hc Hfuel. unfold get_all_pages_in_space, try_except.
  rewrite (listing_loop_conversation _ _ _ _ _ _ Hc fuel [] tr Hfuel).
  destruct ending as [|e].
  - now rewrite app_nil_r.
  - unfold bind, print, emit, ret; cbn [world trace].
    now rewrite <- app_assoc.
Qed.

(** ** The whole run *)

Lemma print_lines (l : list (nat * PageSummary)) (s : State W) :
  for_each l
    (fun '(i, page) =>
       print ("   " +++ str_of_nat i +++ ". " +++ ps_title page
              +++ " (ID: " +++ ps_id page +++ ")")) s =
    (Returns tt, mkState (world s) (trace s ++ map page_line l)).
Proof.
  revert s. induction l as [|[i page] l IH]; intros s.
  - cbn [for_each map]. unfold ret. rewrite app_nil_r. now destruct s.
  - cbn [for_each map]. unfold bind, print, emit at 1. rewrite IH.
    cbn [world trace]. now rewrite <- app_assoc.
Qed.

(** The part of [main] that follows a non-empty listing. *)
Lemma main_after_listing (pages : list PageSummary) (s : State W) :
  pages <> [] ->
  exists s' tr,
    for_each pages body
      (mkState (world s) (trace s ++ header pages)) = (Returns tt, s')
    /\ trace s' = (trace s ++ header pages) ++ tr
    /\ turns pages tr
    /\ (pages' <- ret pages ;;
        match pages' with
        | [] => emit no_pages
        | _ :: _ =>
            print ("✅ Found " +++ str_of_nat (length pages') +++ " pages in space "
                   +++ SPACE_KEY +++ nl) ;;
            print "📄 Pages in space:" ;;
            for_each (enumerate pages' 1)
              (fun '(i, page) =>
                 print ("   " +++ str_of_nat i +++ ". " +++ ps_title page
                        +++ " (ID: " +++ ps_id page +++ ")")) ;;
            print (nl +++ rule) ;;
            print "📝 Updating pages with Lambda status..." ;;
            print (rule +++ nl) ;;
            for_each pages' body ;;
            print rule ;;
            print "✅ Confluence update complete!" ;;
            print rule
        end)%script s
       = (Returns tt, mkState (world s') (trace s' ++ footer)).
Proof.
  intros Hne.
  destruct (loop_turns pages (mkState (world s) (trace s ++ header pages)))
    as (s' & tr & Hloop & Htr & Hturns).
  exists s', tr. repeat split; try assumption.
  destruct pages as [|p ps]; [contradiction|].
  unfold bind at 1, ret at 1.
  unfold bind at 1, print at 1, emit at 1.
  unfold bind at 1, print at 1, emit at 1.
  unfold bind at 1. rewrite print_lines.
  unfold bind at 1, print at 1, emit at 1.
  unfold bind at 1, print at 1, emit at 1.
  unfold bind at 1, print at 1, emit at 1.
  cbn [world trace].
  unfold bind at 1.
  replace ((((((trace s ++ _) ++ _) ++ _) ++ _) ++ _) ++ _)
    with (trace s ++ header (p :: ps)).
  2:{ unfold header. now rewrite <- !app_assoc. }
  rewrite Hloop. unfold bind, print, emit. cbn [world trace].
  unfold footer. now rewrite <- !app_assoc.
Qed.

(** Every run leaves a trace of one of the four shapes. *)
Lemma main_run_trace (fuel : nat) (w : W) o s' :
  main T fuel (start w) = (o, s') -> run_trace o (trace s').
Proof.
  unfold main. unfold bind at 1, print at 1, emit at 1.
  cbn [start world trace app]. fold banner.
  unfold bind at 1, get_all_pages_in_space, try_except.
  destruct (listing_loop_shape fuel content_url (listing_params SPACE_KEY) []
              (mkState w [banner])) as (xs & Htr & Hq & Hps).
  destruct (listing_loop T fuel content_url (listing_params SPACE_KEY) []
              (mkState w [banner])) as [[pages|e|] s1] eqn:Hloop;
    cbn [fst snd trace] in Htr, Hps.
  - specialize (Hps pages eq_refl). cbn [app] in Hps. subst pages.
    destruct (listed xs) as [|p ps] eqn:Hl.
    + unfold print, emit. intros [= <- <-]. cbn [trace]. rewrite Htr.
      change ([banner] ++ xs) with (banner :: xs). rewrite <- app_comm_cons.
      now apply run_empty.
    + assert (Hne : p :: ps <> []) by discriminate.
      destruct (main_after_listing (p :: ps) s1 Hne)
        as (s2 & tr & _ & Htr' & Hturns & Hmain).
      unfold bind at 1, ret at 1 in Hmain. fold no_pages in *.
      rewrite Hmain. intros [= <- <-]. cbn [trace]. rewrite Htr', Htr.
      change ([banner] ++ xs) with (banner :: xs).
      rewrite <- !app_assoc, <- app_comm_cons, <- Hl.
      apply run_updates; rewrite ?Hl; try assumption.
      apply (quiet_silent _ Hq).
  - unfold bind, print, emit, ret. cbn [world trace]. intros [= <- <-].
    cbn [trace]. rewrite Htr.
    change ([banner] ++ xs) with (banner :: xs).
    rewrite <- !app_assoc, <- app_comm_cons. now apply run_failed.
  - intros [= <- <-]. rewrite Htr. now apply run_cut.
Qed.

(** The run on a conversation that fits the fuel, in full. *)
Lemma main_run (fuel : nat) (w : W) xs ending w1 :
  conversation T content_url (listing_params SPACE_KEY) w xs ending w1 ->
  length xs <= fuel ->
  main T fuel (start w) =
    match ending with
    | Failed e =>
        (Returns tt, mkState w1 (banner :: xs ++ [listing_error e; no_pages]))
    | Ended =>
        match listed xs with
        | [] => (Returns tt, mkState w1 (banner :: xs ++ [no_pages]))
        | pages =>
            let s' := snd (for_each pages body
                             (mkState w1 (banner :: xs ++ header pages))) in
            (Returns tt, mkState (world s') (trace s' ++ footer))
        end
    end.
Proof.
  intros Hc Hfuel. unfold main. unfold bind at 1, print at 1, emit at 1.
  cbn [start world trace app]. fold banner.
  unfold bind at 1.
  rewrite (get_all_pages_run SPACE_KEY w xs ending w1 fuel [banner] Hc Hfuel).
  destruct ending as [|e].
  - rewrite app_nil_r. destruct (listed xs) as [|p ps] eqn:Hl.
    + reflexivity.
    + assert (Hne : p :: ps <> []) by discriminate.
      destruct (main_after_listing (p :: ps) (mkState w1 ([banner] ++ xs)) Hne)
        as (s' & tr & Hloop & _ & _ & Hmain).
      unfold bind at 1, ret at 1 in Hmain. fold no_pages in *.
      cbn [world trace] in Hmain, Hloop. rewrite Hmain.
      change ([banner] ++ xs) with (banner :: xs) in Hloop.
      rewrite <- app_comm_cons in Hloop. cbv zeta. now rewrite Hloop.
  - unfold print, emit. cbn [world trace]. fold no_pages.
    now rewrite <- !app_assoc.
Qed.

End ClientFacts.

(* ================================================================== *)
(** * What the trace of a run says *)
(* ================================================================== *)

Lemma marker_in_block : str_in marker create_lambda_status_section = true.
Proof. vm_compute. reflexivity. Qed.

Lemma marker_in_submitted (old : string) :
  str_in marker (create_lambda_status_section +++ separator +++ old) = true.
Proof. apply str_in_append_l, marker_in_block. Qed.

(** A turn writes at most once, to the page it is for, and what it sends is
    made of that page's listed title and fetched version and body. *)
Lemma turn_put_inv (p : PageSummary) (t : list Obs) (u : string) (pl : Payload) :
  turn p t -> In (u, pl) (puts t) ->
  u = page_url (ps_id p)
  /\ exists page,
       pl = update_payload (ps_title p)
              (create_lambda_status_section +++ separator +++ fp_body page)
              (fp_version page).
Proof.
  intros [e| |page Hm|page r Hm] Hin.
  - destruct Hin.
  - destruct Hin.
  - destruct Hin.
  - change (Http ?a :: Http ?b :: ?l) with ([Http a; Http b] ++ l) in Hin.
    rewrite puts_app in Hin.
    destruct (quiet_silent _ (turn_tail_quiet (ps_title p) r
      ("   Version: " +++ str_of_Z (fp_version page) +++ " → "
       +++ str_of_Z (fp_version page + 1) +++ nl))) as (_ & _ & Hq & _).
    rewrite Hq, app_nil_r in Hin. destruct Hin as [[= <- <-]|[]].
    split; [reflexivity | now exists page].
Qed.

Lemma turns_put_inv (ps : list PageSummary) (tr : list Obs) (u : string)
    (pl : Payload) :
  turns ps tr -> In (u, pl) (puts tr) ->
  exists p page,
    In p ps /\ u = page_url (ps_id p)
    /\ pl = update_payload (ps_title p)
              (create_lambda_status_section +++ separator +++ fp_body page)
              (fp_version page).
Proof.
  induction 1 as [|p ps t ts Ht _ IH]; intros Hin; [destruct Hin|].
  rewrite puts_app in Hin. apply in_app_or in Hin as [Hin|Hin].
  - destruct (turn_put_inv p t u pl Ht Hin) as (-> & page & ->).
    exists p, page. repeat split. now left.
  - destruct (IH Hin) as (q & page & Hq & Hu & Hpl).
    exists q, page. repeat split; try assumption. now right.
Qed.

Lemma turn_fetched (p : PageSummary) (t : list Obs) :
  turn p t -> fetched t = [page_url (ps_id p)].
Proof.
  intros [e| |page Hm|page r Hm]; try reflexivity.
  change (Http ?a :: Http ?b :: ?l) with ([Http a; Http b] ++ l).
  rewrite fetched_app.
  destruct (quiet_silent _ (turn_tail_quiet (ps_title p) r
    ("   Version: " +++ str_of_Z (fp_version page) +++ " → "
     +++ str_of_Z (fp_version page + 1) +++ nl))) as (-> & _).
  reflexivity.
Qed.

(** Every page of the list is fetched, once and in order. *)
Lemma turns_fetched (ps : list PageSummary) (tr : list Obs) :
  turns ps tr -> fetched tr = map (fun p => page_url (ps_id p)) ps.
Proof.
  induction 1 as [|p ps t ts Ht _ IH]; [reflexivity|].
  now rewrite fetched_app, (turn_fetched p t Ht), IH.
Qed.

(** The page traffic of a run is the traffic of its update loop, over pages
    that the listing delivered. *)
Lemma run_trace_loop (o : Outcome unit) (tr : list Obs) :
  run_trace o tr ->
  exists ps t,
    turns ps t
    /\ puts tr = puts t
    /\ fetch_replies tr = fetch_replies t
    /\ fetched tr = fetched t
    /\ forall p, In p ps -> In p (listed tr).
Proof.
  assert (Hb : forall l, puts (banner :: l) = puts l
                         /\ fetch_replies (banner :: l) = fetch_replies l
                         /\ fetched (banner :: l) = fetched l
                         /\ listed (banner :: l) = listed l)
    by (intros l; now repeat split).
  intros [xs Hq | xs e Hq | xs Hq Hl | xs t Hq Hne Hf Ht].
  - exists [], []. destruct (Hb xs) as (-> & -> & -> & _).
    destruct (quiet_silent _ Hq) as (-> & -> & -> & _).
    repeat split; [constructor | intros p []].
  - exists [], []. destruct (Hb (xs ++ [listing_error e; no_pages])) as (-> & -> & -> & _).
    rewrite puts_app, fetch_replies_app, fetched_app.
    destruct (quiet_silent _ Hq) as (-> & -> & -> & _).
    repeat split; [constructor | intros p []].
  - exists [], []. destruct (Hb (xs ++ [no_pages])) as (-> & -> & -> & _).
    rewrite puts_app, fetch_replies_app, fetched_app.
    destruct (quiet_silent _ Hq) as (-> & -> & -> & _).
    repeat split; [constructor | intros p []].
  - exists (listed xs), t.
    destruct (Hb (xs ++ header (listed xs) ++ t ++ footer)) as (-> & -> & -> & ->).
    rewrite !puts_app, !fetch_replies_app, !fetched_app, !listed_app.
    destruct (quiet_silent _ Hq) as (-> & -> & -> & _).
    destruct (quiet_silent _ (quiet_header (listed xs))) as (-> & -> & -> & _).
    destruct (quiet_silent _ quiet_footer) as (-> & -> & -> & _).
    rewrite !app_nil_r. cbn [app].
    repeat split; try assumption.
    intros p Hp. apply in_or_app. now left.
Qed.

(* ================================================================== *)
(** * Invariants of a run *)
(* ================================================================== *)

Section Invariants.

Context {W : Type}.
Variable T : Transport W.

Local Abbreviation body := (main_loop_body T create_lambda_status_section).

(** [main], read off the outcome of its listing loop. *)
Lemma main_unfold (fuel : nat) (w : W) :
  main T fuel (start w) =
    let (o, s1) := listing_loop T fuel content_url (listing_params SPACE_KEY) []
                     (mkState w [banner]) in
    match o with
    | OutOfFuel => (OutOfFuel, s1)
    | Raises e =>
        (Returns tt, mkState (world s1) (trace s1 ++ [listing_error e; no_pages]))
    | Returns [] => (Returns tt, mkState (world s1) (trace s1 ++ [no_pages]))
    | Returns pages =>
        let s2 := snd (for_each pages body
                         (mkState (world s1) (trace s1 ++ header pages))) in
        (Returns tt, mkState (world s2) (trace s2 ++ footer))
    end.
Proof.
  unfold main. unfold bind at 1, print at 1, emit at 1.
  cbn [start world trace app]. fold banner.
  unfold bind at 1, get_all_pages_in_space, try_except.
  destruct (listing_loop T fuel content_url (listing_params SPACE_KEY) []
              (mkState w [banner])) as [[pages|e|] s1].
  - destruct pages as [|p ps]; [reflexivity|].
    assert (Hne : p :: ps <> []) by discriminate.
    destruct (main_after_listing T (p :: ps) s1 Hne)
      as (s2 & tr & Hloop & _ & _ & Hmain).
    unfold bind at 1, ret at 1 in Hmain. fold no_pages in *.
    rewrite Hmain. cbv zeta. now rewrite Hloop.
  - unfold bind, print, emit, ret. cbn [world trace]. fold no_pages.
    now rewrite <- !app_assoc.
  - reflexivity.
Qed.

Variable I : W -> Prop.
Variable Q : Obs -> Prop.

Hypothesis Q_printed : forall line, Q (Printed line).
Hypothesis Q_listing : forall url params r, Q (Http (ExList url params r)).
Hypothesis I_listing :
  forall url params w, I w -> I (snd (get_listing T url params w)).
Hypothesis I_turn :
  forall p s, I (world s) ->
    exists t, trace (snd (body p s)) = trace s ++ t
              /\ Forall Q t /\ I (world (snd (body p s))).

Lemma listing_loop_preserves fuel url params acc (s : State W) :
  I (world s) -> Forall Q (trace s) ->
  I (world (snd (listing_loop T fuel url params acc s)))
  /\ Forall Q (trace (snd (listing_loop T fuel url params acc s))).
Proof.
  revert url params acc s. induction fuel as [|fuel IH]; intros url params acc s Hi Hq.
  - now split.
  - cbn [listing_loop]. unfold bind, request_listing.
    pose proof (I_listing url params (world s) Hi) as Hi'.
    destruct (get_listing T url params (world s)) as [[e|data] w']; cbn [of_reply].
    + cbn [snd world trace]. split; [exact Hi'|].
      apply Forall_app. split; [exact Hq | repeat constructor; apply Q_listing].
    + assert (Hq' : Forall Q (trace s ++ [Http (ExList url params (inr data))])).
      { apply Forall_app. split; [exact Hq | repeat constructor; apply Q_listing]. }
      destruct (next_link data) as [next|].
      * apply IH; assumption.
      * unfold ret. cbn [snd world trace]. now split.
Qed.

Lemma loop_preserves (ps : list PageSummary) (s : State W) :
  I (world s) -> Forall Q (trace s) ->
  I (world (snd (for_each ps body s)))
  /\ Forall Q (trace (snd (for_each ps body s))).
Proof.
  revert s. induction ps as [|p ps IH]; intros s Hi Hq.
  - now split.
  - destruct (body_turn T p s) as (s1 & t & Hb & _ & _).
    destruct (I_turn p s Hi) as (t' & Ht & Hqt & Hi1).
    assert (E : for_each (p :: ps) body s = for_each ps body s1)
      by (cbn [for_each]; unfold bind; now rewrite Hb).
    rewrite E. rewrite Hb in Ht, Hi1. cbn [snd] in Ht, Hi1.
    apply IH; [exact Hi1|]. rewrite Ht. apply Forall_app. now split.
Qed.

(** What every listing request and every turn preserves, the run preserves;
    what every observation of a turn satisfies, the whole trace satisfies. *)
Lemma main_preserves (fuel : nat) (w : W) :
  I w ->
  I (world (snd (main T fuel (start w))))
  /\ Forall Q (trace (snd (main T fuel (start w)))).
Proof.
  intros Hi. rewrite main_unfold.
  assert (Hb : Forall Q (trace (mkState w [banner])))
    by (repeat constructor; apply Q_printed).
  destruct (listing_loop_preserves fuel content_url (listing_params SPACE_KEY) []
              (mkState w [banner]) Hi Hb) as (Hi1 & Hq1).
  destruct (listing_loop T fuel content_url (listing_params SPACE_KEY) []
              (mkState w [banner])) as [[pages|e|] s1]; cbn [snd] in Hi1, Hq1.
  - destruct pages as [|p ps].
    + cbn [snd world trace]. split; [exact Hi1|].
      apply Forall_app. split; [exact Hq1 | repeat constructor; apply Q_printed].
    + cbv zeta. cbn [snd world trace].
      assert (Hh : Forall Q (trace s1 ++ header (p :: ps))).
      { apply Forall_app. split; [exact Hq1|].
        unfold header. repeat (apply Forall_app; split);
          try (repeat constructor; apply Q_printed).
        apply Forall_forall. intros o Ho. apply in_map_iff in Ho as (x & <- & _).
        apply Q_printed. }
      destruct (loop_preserves (p :: ps)
                  (mkState (world s1) (trace s1 ++ header (p :: ps))) Hi1 Hh)
        as (Hi2 & Hq2).
      split; [exact Hi2|]. apply Forall_app. split; [exact Hq2|].
      repeat constructor; apply Q_printed.
  - cbn [snd world trace]. split; [exact Hi1|].
    apply Forall_app. split; [exact Hq1 | repeat constructor; apply Q_printed].
  - now split.
Qed.

End Invariants.

(* ================================================================== *)
(** * Facts about the fixture service *)
(* ================================================================== *)

Section FixtureFacts.

Import Fixture.

Lemma strip_append (p r : string) : strip p (p +++ r) = Some r.
Proof.
  induction p as [|a p IH]; [reflexivity|].
  cbn. now rewrite Ascii.eqb_refl.
Qed.

Lemma page_url_split (id : string) : page_url id = (content_url +++ "/") +++ id.
Proof. reflexivity. Qed.

Lemma strip_page_url (id : string) :
  strip (content_url +++ "/") (page_url id) = Some id.
Proof. rewrite page_url_split. apply strip_append. Qed.

Lemma page_url_inj (a b : string) : page_url a = page_url b -> a = b.
Proof. rewrite !page_url_split. apply append_inv_head. Qed.

Lemma listing_start_next (k : nat) :
  listing_start (CONFLUENCE_BASE_URL +++ next_path k) = Some k.
Proof.
  unfold listing_start.
  assert (E : CONFLUENCE_BASE_URL +++ next_path k
              = (content_url +++ "?start=") +++ str_of_nat k) by reflexivity.
  rewrite E, strip_append, uint_of_str_of_nat, DecimalNat.Unsigned.of_to.
  reflexivity.
Qed.

(** ** What each request does to the store *)

Lemma next_fault_store (w : World) :
  pages (snd (next_fault w)) = pages w /\ chunk (snd (next_fault w)) = chunk w.
Proof. unfold next_fault. now destruct (faults w). Qed.

Lemma lookup_next_fault (id : string) (w : World) :
  lookup id (snd (next_fault w)) = lookup id w.
Proof. unfold lookup. now rewrite (proj1 (next_fault_store w)). Qed.

Lemma fx_get_listing_store url params w :
  pages (snd (fx_get_listing url params w)) = pages w
  /\ chunk (snd (fx_get_listing url params w)) = chunk w.
Proof.
  unfold fx_get_listing, serve.
  pose proof (next_fault_store w) as H.
  destruct (next_fault w) as [[e|] w1]; cbn [snd] in *; [exact H|].
  now destruct (listing_start url).
Qed.

Lemma fx_get_content_store url params w :
  pages (snd (fx_get_content url params w)) = pages w
  /\ chunk (snd (fx_get_content url params w)) = chunk w.
Proof.
  unfold fx_get_content, serve.
  pose proof (next_fault_store w) as H.
  destruct (next_fault w) as [[e|] w1]; cbn [snd] in *; [exact H|].
  destruct (strip (content_url +++ "/") url) as [id|]; [|exact H].
  now destruct (lookup id w1).
Qed.

(** A fetch that succeeds returns the page the store holds under the id. *)
Lemma fx_get_content_reply id params w page w' :
  fx_get_content (page_url id) params w = (inr (Some page), w') ->
  exists p, lookup id w = Some p /\ page = full_page p.
Proof.
  unfold fx_get_content, serve. rewrite strip_page_url.
  pose proof (lookup_next_fault id w) as Hl.
  destruct (next_fault w) as [[e|] w1]; cbn [snd] in Hl; [discriminate|].
  rewrite Hl. destruct (lookup id w) as [p|]; [|discriminate].
  intros [= <- <-]. now exists p.
Qed.

(** The fixture never answers a fetch with a body that counts as false. *)
Lemma fx_get_content_page url params w w' :
  fx_get_content url params w <> (inr None, w').
Proof.
  unfold fx_get_content, serve.
  destruct (next_fault w) as [[e|] w1]; [discriminate|].
  destruct (strip (content_url +++ "/") url) as [id|]; [|discriminate].
  destruct (lookup id w1); discriminate.
Qed.
(** A write is refused without effect, or replaces the page under the id. *)
Lemma fx_put_content_cases id payload w r w' :
  fx_put_content (page_url id) payload w = (r, w') ->
  chunk w' = chunk w
  /\ match r with
     | inl _ => pages w' = pages w
     | inr _ =>
         exists p,
           lookup id w = Some p
           /\ pl_version_number payload = (page_version p + 1)%Z
           /\ pages w' =
                store id
                  (mkPage id (pl_title payload) (pl_version_number payload)
                     (pl_body_value payload))
                  (pages w)
     end.
Proof.
  unfold fx_put_content, serve. rewrite strip_page_url.
  pose proof (lookup_next_fault id w) as Hl.
  pose proof (next_fault_store w) as [Hp Hc].
  destruct (next_fault w) as [[e|] w1]; cbn [snd] in Hl, Hp, Hc.
  - intros [= <- <-]. now split.
  - rewrite Hl. destruct (lookup id w) as [p|].
    + destruct (Z.eqb_spec (pl_version_number payload) (page_version p + 1)).
      * intros [= <- <-]. cbn [chunk pages]. split; [exact Hc|].
        exists p. now rewrite Hp.
      * intros [= <- <-]. now split.
    + intros [= <- <-]. now split.
Qed.

(** ** The store *)

Lemma lookup_store_other (id id' : string) (new : Page) (ps : list Page) :
  id <> id' -> page_id new = id' ->
  find (fun p => String.eqb (page_id p) id) (store id' new ps)
  = find (fun p => String.eqb (page_id p) id) ps.
Proof.
  intros Hne Hnew. induction ps as [|p ps IH]; [reflexivity|].
  cbn [store]. destruct (String.eqb_spec (page_id p) id') as [Hp|Hp]; cbn [find].
  - rewrite Hnew.
    destruct (String.eqb_spec id' id); [congruence|].
    destruct (String.eqb_spec (page_id p) id); [congruence | reflexivity].
  - now rewrite IH.
Qed.

Lemma lookup_store_same (id : string) (new p : Page) (ps : list Page) :
  find (fun p => String.eqb (page_id p) id) ps = Some p -> page_id new = id ->
  find (fun p => String.eqb (page_id p) id) (store id new ps) = Some new.
Proof.
  intros Hf Hnew. induction ps as [|q ps IH]; [discriminate|].
  cbn [store find] in *. destruct (String.eqb_spec (page_id q) id) as [Hq|Hq].
  - cbn [find]. now rewrite Hnew, String.eqb_refl.
  - cbn [find]. destruct (String.eqb_spec (page_id q) id); [contradiction|].
    now apply IH.
Qed.

(** ** A page that has the marker *)

Local Abbreviation fx_body := (main_loop_body transport create_lambda_status_section).

Lemma update_log_not_put (id title : string) (r : Reply unit) (tail : list Obs) :
  Forall (not_put_to id) tail ->
  Forall (not_put_to id) (update_log title r ++ tail).
Proof.
  intros Ht. apply Forall_app. split; [|exact Ht].
  destruct r as [e|u]; cbn [update_log]; [destruct (exc_response e)|];
    repeat constructor; intros payload r'; discriminate.
Qed.

(** A turn neither writes to a page that has the marker nor changes it. *)
Lemma fx_turn_keeps_marked (id : string) (p : Page) (q : PageSummary)
    (s : State World) :
  str_in marker (page_body p) = true ->
  lookup id (world s) = Some p ->
  exists t,
    trace (snd (fx_body q s)) = trace s ++ t
    /\ Forall (not_put_to id) t
    /\ lookup id (world (snd (fx_body q s))) = Some p.
Proof.
  intros Hm Hl.
  destruct (fx_get_content (page_url (ps_id q)) content_params (world s))
    as [[e|[page|]] w1] eqn:Hf.
  - rewrite (turn_absent_run transport q s e w1 Hf). cbn [snd trace world].
    eexists. split; [reflexivity|]. split.
    + repeat constructor; intros payload r; discriminate.
    + pose proof (fx_get_content_store (page_url (ps_id q)) content_params (world s)) as [Hp _].
      rewrite Hf in Hp. unfold lookup in *. cbn [snd] in Hp. now rewrite Hp.
  - pose proof (fx_get_content_store (page_url (ps_id q)) content_params (world s)) as [Hp _].
    rewrite Hf in Hp. cbn [snd] in Hp.
    destruct (str_in marker (fp_body page)) eqn:Hpage.
    + rewrite (turn_skipped_run transport q s page w1 Hf Hpage). cbn [snd trace world].
      eexists. split; [reflexivity|]. split.
      * repeat constructor; intros payload r; discriminate.
      * unfold lookup in *. now rewrite Hp.
    + destruct (fx_get_content_reply _ _ _ _ _ Hf) as (p' & Hl' & ->).
      assert (Hne : id <> ps_id q).
      { intros ->. rewrite Hl in Hl'. injection Hl' as <-.
        cbn [full_page fp_body] in Hpage. congruence. }
      destruct (fx_put_content (page_url (ps_id q))
                  (update_payload (ps_title q)
                     (create_lambda_status_section +++ separator
                      +++ fp_body (full_page p'))
                     (fp_version (full_page p'))) w1) as [r w2] eqn:Hput.
      rewrite (turn_written_run transport q s (full_page p') w1 r w2 Hf Hpage Hput).
      cbn [snd trace world].
      eexists. split; [reflexivity|]. split.
      * constructor; [intros payload r'; discriminate|].
        constructor.
        -- intros payload r' H.
           assert (Hu : page_url (ps_id q) = page_url id) by congruence.
           apply page_url_inj in Hu. congruence.
        -- apply update_log_not_put.
           destruct (is_ok r); repeat constructor; intros payload r'; discriminate.
      * destruct (fx_put_content_cases _ _ _ _ _ Hput) as (_ & Hcase).
        unfold lookup in *. destruct r as [e|u].
        -- now rewrite Hcase, Hp.
        -- destruct Hcase as (_ & _ & _ & ->).
           rewrite lookup_store_other; [now rewrite Hp | exact Hne | reflexivity].
  - destruct (fx_get_content_page _ _ _ _ Hf).
Qed.

(** ** A store in which every page has the marker *)

Lemma not_put_puts (tr : list Obs) : Forall not_put tr -> puts tr = [].
Proof.
  induction 1 as [|o tr Ho _ IH]; [reflexivity|].
  destruct o as [line|[u q r|u q r|u pl r]]; cbn; try exact IH.
  now destruct (Ho u pl r).
Qed.

(** On such a store a turn fetches and, at most, skips. *)
Lemma fx_turn_all_marked (q : PageSummary) (s : State World) :
  all_marked (world s) ->
  exists t,
    trace (snd (fx_body q s)) = trace s ++ t
    /\ Forall not_put t
    /\ all_marked (world (snd (fx_body q s))).
Proof.
  intros Hall.
  pose proof (fx_get_content_store (page_url (ps_id q)) content_params (world s))
    as [Hp _].
  destruct (fx_get_content (page_url (ps_id q)) content_params (world s))
    as [[e|[page|]] w1] eqn:Hf; cbn [snd] in Hp.
  - rewrite (turn_absent_run transport q s e w1 Hf). cbn [snd trace world].
    eexists. split; [reflexivity|]. split.
    + repeat constructor; intros u payload r; discriminate.
    + intros id p. unfold lookup. rewrite Hp. apply Hall.
  - destruct (fx_get_content_reply _ _ _ _ _ Hf) as (p' & Hl' & ->).
    pose proof (Hall _ _ Hl') as Hm.
    rewrite (turn_skipped_run transport q s (full_page p') w1 Hf Hm).
    cbn [snd trace world].
    eexists. split; [reflexivity|]. split.
    + repeat constructor; intros u payload r; discriminate.
    + intros id p. unfold lookup. rewrite Hp. apply Hall.
  - destruct (fx_get_content_page _ _ _ _ Hf).
Qed.

(** So a run against such a store writes nothing. *)
Lemma fx_run_all_marked (w : World) (fuel : nat) :
  all_marked w -> puts (trace (snd (run fuel w))) = [].
Proof.
  intros Hall. apply not_put_puts.
  apply (main_preserves transport all_marked not_put); try assumption.
  - intros line u payload r. discriminate.
  - intros url params r u payload r'. discriminate.
  - intros url params w0 H0 id p. unfold lookup.
    cbn [get_listing transport].
    rewrite (proj1 (fx_get_listing_store url params w0)). apply H0.
  - intros q s H0. now apply fx_turn_all_marked.
Qed.

(** ** A run in which every exchange succeeds *)

Lemma store_ids (id : string) (new : Page) (ps : list Page) :
  page_id new = id -> map page_id (store id new ps) = map page_id ps.
Proof.
  intros Hnew. induction ps as [|p ps IH]; [reflexivity|].
  cbn [store]. destruct (String.eqb_spec (page_id p) id) as [Hp|Hp]; cbn [map].
  - congruence.
  - now rewrite IH.
Qed.

(** The turn for [q] on the fixture: something failed and the store is as it
    was, or the page had the marker and the store is as it was, or the page
    was replaced by its bannered self. *)
Lemma fx_turn_cases (q : PageSummary) (s : State World) :
  exists t,
    trace (snd (fx_body q s)) = trace s ++ t
    /\ ((forallb obs_ok t = false
         /\ pages (world (snd (fx_body q s))) = pages (world s))
        \/ (exists p,
              lookup (ps_id q) (world s) = Some p
              /\ str_in marker (page_body p) = true
              /\ pages (world (snd (fx_body q s))) = pages (world s))
        \/ (exists p,
              lookup (ps_id q) (world s) = Some p
              /\ pages (world (snd (fx_body q s))) =
                   store (ps_id q)
                     (mkPage (ps_id q) (ps_title q) (page_version p + 1)
                        (create_lambda_status_section +++ separator
                         +++ page_body p))
                     (pages (world s)))).
Proof.
  pose proof (fx_get_content_store (page_url (ps_id q)) content_params (world s))
    as [Hp _].
  destruct (fx_get_content (page_url (ps_id q)) content_params (world s))
    as [[e|[page|]] w1] eqn:Hf; cbn [snd] in Hp.
  - rewrite (turn_absent_run transport q s e w1 Hf). cbn [snd trace world].
    eexists. split; [reflexivity|]. left. now split.
  - destruct (fx_get_content_reply _ _ _ _ _ Hf) as (p' & Hl' & ->).
    destruct (str_in marker (fp_body (full_page p'))) eqn:Hm.
    + rewrite (turn_skipped_run transport q s (full_page p') w1 Hf Hm).
      cbn [snd trace world].
      eexists. split; [reflexivity|]. right; left. now exists p'.
    + destruct (fx_put_content (page_url (ps_id q))
                  (update_payload (ps_title q)
                     (create_lambda_status_section +++ separator
                      +++ fp_body (full_page p'))
                     (fp_version (full_page p'))) w1) as [r w2] eqn:Hput.
      rewrite (turn_written_run transport q s (full_page p') w1 r w2 Hf Hm Hput).
      cbn [snd trace world].
      eexists. split; [reflexivity|].
      destruct (fx_put_content_cases _ _ _ _ _ Hput) as (_ & Hcase).
      destruct r as [e|u].
      * left. split; [reflexivity | congruence].
      * right; right. destruct Hcase as (p'' & Hl'' & _ & Hstore).
        exists p'. split; [exact Hl'|].
        rewrite Hstore, Hp. reflexivity.
  - destruct (fx_get_content_page _ _ _ _ Hf).
Qed.

Lemma fx_turn_ids (q : PageSummary) (s : State World) :
  map page_id (pages (world (snd (fx_body q s)))) = map page_id (pages (world s)).
Proof.
  destruct (fx_turn_cases q s)
    as (t & _ & [(_ & ->) | [(p & _ & _ & ->) | (p & _ & ->)]]);
    try reflexivity.
  now apply store_ids.
Qed.

(** A turn in which nothing failed leaves its page with the marker. *)
Lemma fx_turn_marks (q : PageSummary) (s : State World) t :
  trace (snd (fx_body q s)) = trace s ++ t ->
  forallb obs_ok t = true ->
  marked (world (snd (fx_body q s))) (ps_id q).
Proof.
  intros Ht Hok.
  destruct (fx_turn_cases q s)
    as (t' & Ht' & [(Hbad & _) | [(p & Hl & Hm & Hp) | (p & Hl & Hp)]]).
  - rewrite Ht in Ht'. apply app_inv_head in Ht'. congruence.
  - exists p. unfold lookup in *. now rewrite Hp.
  - eexists. unfold lookup in *. rewrite Hp. split.
    + now apply (lookup_store_same _ _ p).
    + apply marker_in_submitted.
Qed.

Lemma fx_body_returns (q : PageSummary) (s : State World) :
  fx_body q s = (Returns tt, snd (fx_body q s)).
Proof. destruct (body_turn transport q s) as (s1 & t & -> & _). reflexivity. Qed.

Lemma fx_loop_step (q : PageSummary) (ps : list PageSummary) (s : State World) :
  for_each (q :: ps) fx_body s = for_each ps fx_body (snd (fx_body q s)).
Proof. cbn [for_each]. unfold bind. now rewrite fx_body_returns. Qed.

Lemma fx_loop_keeps_marked (id : string) (ps : list PageSummary) (s : State World) :
  marked (world s) id -> marked (world (snd (for_each ps fx_body s))) id.
Proof.
  intros (p & Hl & Hm). exists p. split; [|exact Hm].
  apply (loop_preserves transport (fun w => lookup id w = Some p) (fun _ => True)).
  - intros q s0 H0.
    destruct (fx_turn_keeps_marked id p q s0 Hm H0) as (t & Ht & _ & Hi).
    exists t. repeat split; try assumption. now apply Forall_forall.
  - exact Hl.
  - now apply Forall_forall.
Qed.

Lemma fx_loop_ids (ps : list PageSummary) (s : State World) :
  map page_id (pages (world (snd (for_each ps fx_body s))))
  = map page_id (pages (world s)).
Proof.
  revert s. induction ps as [|q ps IH]; intros s; [reflexivity|].
  now rewrite fx_loop_step, IH, fx_turn_ids.
Qed.

(** A loop in which nothing failed leaves every page of its list with the
    marker. *)
Lemma fx_loop_marks (ps : list PageSummary) (s : State World) :
  forallb obs_ok (trace (snd (for_each ps fx_body s))) = true ->
  forall q, In q ps -> marked (world (snd (for_each ps fx_body s))) (ps_id q).
Proof.
  revert s. induction ps as [|p ps IH]; intros s Hok q Hq; [destruct Hq|].
  rewrite fx_loop_step in *.
  destruct Hq as [<-|Hq]; [|now apply IH].
  apply fx_loop_keeps_marked.
  destruct (fx_turn_cases p s) as (t & Ht & _).
  apply (fx_turn_marks p s t Ht).
  destruct (loop_turns transport ps (snd (fx_body p s))) as (s2 & tr & Hl & Htr & _).
  rewrite Hl in Hok. cbn [snd] in Hok.
  rewrite Htr, Ht, !forallb_app in Hok.
  now apply andb_true_iff in Hok as [Hok%andb_true_iff _].
Qed.

(** ** The listing of the fixture *)

Lemma fx_get_listing_ok url params w data w' k :
  fx_get_listing url params w = (inr data, w') ->
  listing_start url = Some k ->
  data = listing_at w' k /\ pages w' = pages w /\ chunk w' = chunk w.
Proof.
  unfold fx_get_listing, serve. intros H Hk. rewrite Hk in H.
  pose proof (next_fault_store w) as Hs.
  destruct (next_fault w) as [[e|] w1]; [discriminate|].
  injection H as <- <-. cbn [snd] in Hs. now split.
Qed.

Lemma listing_at_last (w : World) (k : nat) :
  next_link (listing_at w k) = None ->
  results (listing_at w k) = map summary (skipn k (pages w)).
Proof.
  unfold listing_at. cbn [next_link results].
  destruct (Nat.ltb_spec (k + S (chunk w)) (length (pages w))); [discriminate|].
  intros _. rewrite firstn_all2; [reflexivity|].
  rewrite length_skipn. lia.
Qed.

Lemma listing_at_next (w : World) (k : nat) (next : string) :
  next_link (listing_at w k) = Some next ->
  next = next_path (k + S (chunk w)).
Proof.
  unfold listing_at. cbn [next_link].
  destruct (Nat.ltb (k + S (chunk w)) (length (pages w))); congruence.
Qed.

(** When no exchange fails, the loop returns the whole store from the
    offset of its first request on, chunk after chunk. *)
Lemma fx_listing_ok (fuel k : nat) url params acc (s : State World) :
  listing_start url = Some k ->
  forallb obs_ok (trace (snd (listing_loop transport fuel url params acc s))) = true ->
  match fst (listing_loop transport fuel url params acc s) with
  | Returns ps => ps = acc ++ map summary (skipn k (pages (world s)))
  | Raises _ => False
  | OutOfFuel => True
  end.
Proof.
  revert k url params acc s.
  induction fuel as [|fuel IH]; intros k url params acc s Hk Hok; [exact I|].
  cbn [listing_loop] in *. unfold bind, request_listing in *.
  cbn [get_listing transport] in *.
  destruct (fx_get_listing url params (world s)) as [[e|data] w'] eqn:Hg;
    cbn [of_reply] in *.
  - cbn [snd trace] in Hok. rewrite forallb_app in Hok.
    apply andb_true_iff in Hok as [_ Hok]. discriminate.
  - destruct (fx_get_listing_ok _ _ _ _ _ _ Hg Hk) as (-> & Hp & Hc).
    destruct (next_link (listing_at w' k)) as [next|] eqn:Hn.
    + apply listing_at_next in Hn. subst next.
      specialize (IH (k + S (chunk w')) _ [] (acc ++ results (listing_at w' k))
                    (mkState w' (trace s ++
                       [Http (ExList url params (inr (listing_at w' k)))]))
                    (listing_start_next _) Hok).
      destruct (listing_loop transport fuel _ [] _ _) as [[ps|e|] s1];
        cbn [fst] in *; try exact IH.
      rewrite IH. cbn [world]. rewrite <- app_assoc. f_equal.
      unfold listing_at. cbn [results]. rewrite Hp, <- map_app. f_equal.
      replace (k + S (chunk w')) with (S (chunk w') + k) by lia.
      rewrite <- skipn_skipn. apply firstn_skipn.
    + unfold ret. cbn [fst]. f_equal.
      rewrite (listing_at_last _ _ Hn). now rewrite Hp.
Qed.

Lemma fx_listing_store fuel url params acc (s : State World) :
  pages (world (snd (listing_loop transport fuel url params acc s)))
  = pages (world s).
Proof.
  assert (Hstep : forall u q w0, pages w0 = pages (world s) ->
                   pages (snd (get_listing transport u q w0)) = pages (world s)).
  { intros u q w0 H0. cbn [get_listing transport].
    now rewrite (proj1 (fx_get_listing_store u q w0)). }
  apply (listing_loop_preserves transport (fun w => pages w = pages (world s))
           (fun _ => True) (fun _ _ _ => I) Hstep); [reflexivity|].
  now apply Forall_forall.
Qed.

(** After a run that returned and in which no exchange failed, every page
    the service serves has the marker. *)
Lemma fx_clean_run_marks_all (w : World) (fuel : nat) :
  fst (run fuel w) = Returns tt ->
  forallb obs_ok (trace (snd (run fuel w))) = true ->
  all_marked (world (snd (run fuel w))).
Proof.
  unfold run. rewrite main_unfold.
  pose proof (fx_listing_ok fuel 0 content_url (listing_params SPACE_KEY) []
                (mkState w [banner]) eq_refl) as Hlist.
  pose proof (fx_listing_store fuel content_url (listing_params SPACE_KEY) []
                (mkState w [banner])) as Hstore.
  destruct (listing_loop transport fuel content_url (listing_params SPACE_KEY) []
              (mkState w [banner])) as [[ps|e|] s1];
    cbn [fst snd world] in Hlist, Hstore.
  - destruct ps as [|q ps].
    + cbn [fst snd trace world]. intros _ Hok.
      rewrite forallb_app in Hok. apply andb_true_iff in Hok as [Hok _].
      specialize (Hlist Hok). cbn [app skipn] in Hlist.
      symmetry in Hlist. apply map_eq_nil in Hlist.
      intros id p. unfold lookup. rewrite Hstore, Hlist. discriminate.
    + cbv zeta. cbn [fst snd trace world]. intros _ Hok.
      rewrite forallb_app in Hok. apply andb_true_iff in Hok as [Hok _].
      set (s0 := mkState (world s1) (trace s1 ++ header (q :: ps))) in *.
      destruct (loop_turns transport (q :: ps) s0) as (s2 & tr & Hl & Htr & _).
      assert (Hok1 : forallb obs_ok (trace s1) = true).
      { rewrite Hl in Hok. cbn [snd] in Hok. rewrite Htr in Hok.
        unfold s0 in Hok. cbn [trace] in Hok. rewrite !forallb_app in Hok.
        apply andb_true_iff in Hok as [Hok _].
        now apply andb_true_iff in Hok as [Hok _]. }
      specialize (Hlist Hok1). cbn [app skipn] in Hlist.
      pose proof (fx_loop_marks (q :: ps) s0 Hok) as Hmarks.
      pose proof (fx_loop_ids (q :: ps) s0) as Hids.
      unfold s0 in Hids at 2. cbn [world] in Hids. rewrite Hstore in Hids.
      intros id p Hp.
      assert (Hin : In id (map page_id (pages w))).
      { rewrite <- Hids. unfold lookup in Hp. apply find_some in Hp as [Hin Heq].
        apply String.eqb_eq in Heq. subst id. now apply in_map. }
      apply in_map_iff in Hin as (p0 & <- & Hin0).
      destruct (Hmarks (summary p0)) as (p' & Hp' & Hm).
      { rewrite Hlist. now apply in_map. }
      cbn [summary ps_id] in Hp'. congruence.
  - cbn [fst snd trace]. intros _ Hok.
    rewrite forallb_app in Hok. apply andb_true_iff in Hok as [Hok _].
    destruct (Hlist Hok).
  - discriminate.
Qed.

(** ** Every listing conversation with the fixture is finite *)

Lemma fx_conversation_from (m : nat) :
  forall (w : World) url params k,
    listing_start url = Some k ->
    length (pages w) - k <= m ->
    exists xs ending w',
      conversation transport url params w xs ending w' /\ length xs <= S m.
Proof.
  induction m as [|m IH]; intros w url params k Hk Hm;
    destruct (fx_get_listing url params w) as [[e|data] w1] eqn:Hg.
  - exists [Http (ExList url params (inl e))], (Failed e), w1.
    split; [now apply conv_failed | cbn; lia].
  - destruct (fx_get_listing_ok _ _ _ _ _ _ Hg Hk) as (-> & Hp & Hc).
    exists [Http (ExList url params (inr (listing_at w1 k)))], Ended, w1.
    split; [|cbn; lia]. apply conv_last; [exact Hg|].
    unfold listing_at. cbn [next_link].
    destruct (Nat.ltb_spec (k + S (chunk w1)) (length (pages w1))); [|reflexivity].
    rewrite Hp in *. lia.
  - exists [Http (ExList url params (inl e))], (Failed e), w1.
    split; [now apply conv_failed | cbn; lia].
  - destruct (fx_get_listing_ok _ _ _ _ _ _ Hg Hk) as (-> & Hp & Hc).
    destruct (next_link (listing_at w1 k)) as [next|] eqn:Hn.
    + pose proof (listing_at_next _ _ _ Hn) as ->.
      assert (Hlt : k + S (chunk w1) < length (pages w1)).
      { unfold listing_at in Hn. cbn [next_link] in Hn.
        destruct (Nat.ltb_spec (k + S (chunk w1)) (length (pages w1)));
          [assumption | discriminate]. }
      destruct (IH w1 (CONFLUENCE_BASE_URL +++ next_path (k + S (chunk w1))) []
                  (k + S (chunk w1)) (listing_start_next _))
        as (xs & ending & w2 & Hconv & Hlen).
      { rewrite Hp in *. lia. }
      exists (Http (ExList url params (inr (listing_at w1 k))) :: xs), ending, w2.
      split; [|cbn; lia]. eapply conv_next; eassumption.
    + exists [Http (ExList url params (inr (listing_at w1 k)))], Ended, w1.
      split; [|cbn; lia]. now apply conv_last.
Qed.

Lemma fx_conversation_total (w : World) :
  exists xs ending w',
    conversation transport content_url (listing_params SPACE_KEY) w xs ending w'
    /\ length xs <= S (length (pages w)).
Proof.
  apply (fx_conversation_from (length (pages w)) w content_url
           (listing_params SPACE_KEY) 0 eq_refl).
  lia.
Qed.

(** With more fuel than the store has pages, a run against the fixture
    returns, whatever fails on the way. *)
Lemma fx_run_returns (w : World) (fuel : nat) :
  length (pages w) < fuel -> fst (run fuel w) = Returns tt.
Proof.
  intros Hfuel.
  destruct (fx_conversation_total w) as (xs & ending & w' & Hconv & Hlen).
  unfold run. rewrite (main_run transport fuel w xs ending w' Hconv) by lia.
  destruct ending; [destruct (listed xs)|]; reflexivity.
Qed.

(** ** A page that lacks the marker, in a run in which nothing fails *)

Lemma puts_to_app (id : string) (a b : list Obs) :
  puts_to id (a ++ b) = puts_to id a ++ puts_to id b.
Proof. unfold puts_to. now rewrite puts_app, filter_app. Qed.

Lemma quiet_puts_to (id : string) (tr : list Obs) : quiet tr -> puts_to id tr = [].
Proof.
  intros Hq. unfold puts_to. now destruct (quiet_silent tr Hq) as (_ & _ & -> & _).
Qed.

Lemma not_put_to_puts (id : string) (tr : list Obs) :
  Forall (not_put_to id) tr -> puts_to id tr = [].
Proof.
  induction 1 as [|o tr Ho _ IH]; [reflexivity|].
  change (o :: tr) with ([o] ++ tr). rewrite puts_to_app, IH, app_nil_r.
  destruct o as [line|[u q r|u q r|u payload r]]; try reflexivity.
  unfold puts_to. cbn [puts flat_map app filter fst].
  destruct (String.eqb_spec u (page_url id)) as [->|]; [|reflexivity].
  now destruct (Ho payload r).
Qed.

(** The observations of a turn for another page are no writes to this one. *)
Lemma turn_not_put_to (id : string) (q : PageSummary) (t : list Obs) :
  turn q t -> ps_id q <> id -> Forall (not_put_to id) t.
Proof.
  intros [e| |page Hm|page r Hm] Hne.
  - repeat constructor; intros payload r; discriminate.
  - repeat constructor; intros payload r; discriminate.
  - repeat constructor; intros payload r; discriminate.
  - constructor; [intros payload r'; discriminate|].
    constructor.
    + intros payload r' H.
      assert (Hu : page_url (ps_id q) = page_url id) by congruence.
      now apply page_url_inj in Hu.
    + apply update_log_not_put.
      destruct (is_ok r); repeat constructor; intros payload r'; discriminate.
Qed.

(** A turn for another page leaves this one as it is. *)
Lemma fx_turn_other (id : string) (p : Page) (q : PageSummary) (s : State World) :
  ps_id q <> id ->
  lookup id (world s) = Some p ->
  exists t,
    trace (snd (fx_body q s)) = trace s ++ t
    /\ Forall (not_put_to id) t
    /\ lookup id (world (snd (fx_body q s))) = Some p.
Proof.
  intros Hne Hl.
  destruct (body_turn transport q s) as (s1 & t & Hbody & Ht & Hturn).
  rewrite Hbody. cbn [snd]. exists t. split; [exact Ht|].
  split; [now apply (turn_not_put_to id q)|].
  destruct (fx_turn_cases q s)
    as (t' & _ & [(_ & Hp) | [(p' & _ & _ & Hp) | (p' & _ & Hp)]]);
    rewrite Hbody in Hp; cbn [snd] in Hp; unfold lookup in *; rewrite Hp;
    try exact Hl.
  rewrite lookup_store_other; [exact Hl | congruence | reflexivity].
Qed.

(** The turn for a page that lacks the marker, when nothing fails in it:
    one write, and the store holds the page with the banner in front and the
    version raised by one. *)
Lemma fx_turn_writes (p : Page) (q : PageSummary) (s : State World) t :
  lookup (ps_id q) (world s) = Some p ->
  str_in marker (page_body p) = false ->
  trace (snd (fx_body q s)) = trace s ++ t ->
  forallb obs_ok t = true ->
  lookup (ps_id q) (world (snd (fx_body q s)))
  = Some (mkPage (ps_id q) (ps_title q) (page_version p + 1)
            (create_lambda_status_section +++ separator +++ page_body p))
  /\ puts_to (ps_id q) t
     = [(page_url (ps_id q),
         update_payload (ps_title q)
           (create_lambda_status_section +++ separator +++ page_body p)
           (page_version p))].
Proof.
  intros Hl Hm Ht Hok.
  pose proof (fx_get_content_store (page_url (ps_id q)) content_params (world s))
    as [Hp _].
  destruct (fx_get_content (page_url (ps_id q)) content_params (world s))
    as [[e|[page|]] w1] eqn:Hf; cbn [snd] in Hp.
  - rewrite (turn_absent_run transport q s e w1 Hf) in Ht. cbn [snd trace] in Ht.
    apply app_inv_head in Ht. subst t. discriminate.
  - destruct (fx_get_content_reply _ _ _ _ _ Hf) as (p' & Hl' & ->).
    assert (p' = p) by congruence. subst p'.
    destruct (fx_put_content (page_url (ps_id q))
                (update_payload (ps_title q)
                   (create_lambda_status_section +++ separator
                    +++ fp_body (full_page p))
                   (fp_version (full_page p))) w1) as [r w2] eqn:Hput.
    rewrite (turn_written_run transport q s (full_page p) w1 r w2 Hf Hm Hput) in *.
    cbn [snd trace world] in *. apply app_inv_head in Ht. subst t.
    destruct (fx_put_content_cases _ _ _ _ _ Hput) as (_ & Hcase).
    destruct r as [e|u]; [discriminate|].
    destruct Hcase as (p'' & Hl'' & _ & Hstore). split.
    + unfold lookup in *. rewrite Hstore, Hp.
      now apply (lookup_store_same _ _ p).
    + change (Http ?a :: Http ?b :: ?l) with ([Http a; Http b] ++ l).
      rewrite puts_to_app, (quiet_puts_to _ _ (turn_tail_quiet _ _ _)), app_nil_r.
      unfold puts_to. cbn [puts flat_map app filter fst].
      now rewrite String.eqb_refl.
  - destruct (fx_get_content_page _ _ _ _ Hf).
Qed.

Lemma fx_loop_keeps_page (id : string) (p : Page) (ps : list PageSummary)
    (s : State World) :
  str_in marker (page_body p) = true ->
  lookup id (world s) = Some p ->
  exists tr,
    trace (snd (for_each ps fx_body s)) = trace s ++ tr
    /\ Forall (not_put_to id) tr
    /\ lookup id (world (snd (for_each ps fx_body s))) = Some p.
Proof.
  intros Hm. revert s. induction ps as [|q ps IH]; intros s Hl.
  - exists []. cbn. now rewrite app_nil_r.
  - rewrite fx_loop_step.
    destruct (fx_turn_keeps_marked id p q s Hm Hl) as (t & Ht & Hq & Hl1).
    destruct (IH _ Hl1) as (tr & Htr & Hqs & Hl2).
    exists (t ++ tr). split; [now rewrite Htr, Ht, app_assoc|].
    split; [now apply Forall_app | exact Hl2].
Qed.

(** The update loop over the listing of [pgs], when nothing fails in it:
    a page that lacked the marker is written once if it is listed, with the
    title of the first page listed under its id, and is untouched if not. *)
Lemma fx_loop_writes (id : string) (p : Page) (pgs : list Page) (s : State World) :
  lookup id (world s) = Some p ->
  str_in marker (page_body p) = false ->
  forallb obs_ok (trace (snd (for_each (map summary pgs) fx_body s))) = true ->
  exists tr,
    trace (snd (for_each (map summary pgs) fx_body s)) = trace s ++ tr
    /\ match find (fun g => String.eqb (page_id g) id) pgs with
       | None =>
           lookup id (world (snd (for_each (map summary pgs) fx_body s))) = Some p
           /\ puts_to id tr = []
       | Some g =>
           lookup id (world (snd (for_each (map summary pgs) fx_body s)))
           = Some (mkPage id (page_title g) (page_version p + 1)
                     (create_lambda_status_section +++ separator +++ page_body p))
           /\ puts_to id tr
              = [(page_url id,
                  update_payload (page_title g)
                    (create_lambda_status_section +++ separator +++ page_body p)
                    (page_version p))]
       end.
Proof.
  intros Hl Hm. revert s Hl. induction pgs as [|g pgs IH]; intros s Hl Hok.
  - exists []. cbn. now rewrite app_nil_r.
  - cbn [map] in *. rewrite fx_loop_step in *.
    destruct (body_turn transport (summary g) s) as (s1 & t & Hbody & Ht & _).
    rewrite Hbody in *. cbn [snd] in *.
    destruct (loop_turns transport (map summary pgs) s1)
      as (s2 & tr & Hloop & Htr & _).
    assert (Hokt : forallb obs_ok t = true).
    { rewrite Hloop in Hok. cbn [snd] in Hok.
      rewrite Htr, Ht, !forallb_app in Hok.
      now apply andb_true_iff in Hok as [Hok%andb_true_iff _]. }
    cbn [find]. destruct (String.eqb_spec (page_id g) id) as [Hg|Hg].
    + subst id.
      assert (Hb : snd (fx_body (summary g) s) = s1) by now rewrite Hbody.
      destruct (fx_turn_writes p (summary g) s t Hl Hm) as (Hl1 & Hputs);
        [now rewrite Hb | exact Hokt |].
      rewrite Hb in Hl1. cbn [summary ps_id ps_title] in Hl1, Hputs.
      destruct (fx_loop_keeps_page (page_id g)
                  (mkPage (page_id g) (page_title g) (page_version p + 1)
                     (create_lambda_status_section +++ separator +++ page_body p))
                  (map summary pgs) s1
                  (marker_in_submitted _) Hl1) as (tr' & Htr' & Hq & Hl2).
      exists (t ++ tr'). split; [now rewrite Htr', Ht, app_assoc|].
      split; [exact Hl2|].
      now rewrite puts_to_app, Hputs, (not_put_to_puts _ _ Hq).
    + destruct (fx_turn_other id p (summary g) s Hg Hl) as (t' & Ht' & Hq & Hl1).
      rewrite Hbody in Ht', Hl1. cbn [snd] in Ht', Hl1.
      rewrite Ht in Ht'. apply app_inv_head in Ht'. subst t'.
      destruct (IH s1 Hl1 Hok) as (tr' & Htr' & Hcase).
      exists (t ++ tr'). split; [now rewrite Htr', Ht, app_assoc|].
      rewrite puts_to_app, (not_put_to_puts _ _ Hq). exact Hcase.
Qed.

(** After a run that returned and in which no exchange failed, a page that
    lacked the marker has the banner in front of its old body, its version
    raised by one, its title and id as before; and the run sent exactly one
    update request for it. *)
Lemma fx_clean_run_writes (w : World) (fuel : nat) (id : string) (p : Page) :
  fst (run fuel w) = Returns tt ->
  forallb obs_ok (trace (snd (run fuel w))) = true ->
  lookup id w = Some p ->
  str_in marker (page_body p) = false ->
  lookup id (world (snd (run fuel w)))
  = Some (mkPage id (page_title p) (page_version p + 1)
            (create_lambda_status_section +++ separator +++ page_body p))
  /\ puts_to id (trace (snd (run fuel w)))
     = [(page_url id,
         update_payload (page_title p)
           (create_lambda_status_section +++ separator +++ page_body p)
           (page_version p))].
Proof.
  unfold run. rewrite main_unfold.
  pose proof (fx_listing_ok fuel 0 content_url (listing_params SPACE_KEY) []
                (mkState w [banner]) eq_refl) as Hlist.
  pose proof (fx_listing_store fuel content_url (listing_params SPACE_KEY) []
                (mkState w [banner])) as Hstore.
  destruct (listing_loop_shape transport fuel content_url
              (listing_params SPACE_KEY) [] (mkState w [banner]))
    as (xs & Hxs & Hq & _).
  destruct (listing_loop transport fuel content_url (listing_params SPACE_KEY) []
              (mkState w [banner])) as [[ps|e|] s1];
    cbn [fst snd world trace] in Hlist, Hstore, Hxs.
  - intros _ Hok Hl Hm.
    assert (Hok1 : forallb obs_ok (trace s1) = true).
    { destruct ps as [|q ps]; cbn [snd trace] in Hok.
      - rewrite forallb_app in Hok. now apply andb_true_iff in Hok as [Hok _].
      - cbv zeta in Hok. cbn [snd trace] in Hok.
        rewrite forallb_app in Hok. apply andb_true_iff in Hok as [Hok _].
        destruct (loop_turns transport (q :: ps)
                    (mkState (world s1) (trace s1 ++ header (q :: ps))))
          as (s2 & tr & Hloop & Htr & _).
        rewrite Hloop in Hok. cbn [snd] in Hok. rewrite Htr in Hok.
        cbn [trace] in Hok. rewrite !forallb_app in Hok.
        apply andb_true_iff in Hok as [Hok _].
        now apply andb_true_iff in Hok as [Hok _]. }
    specialize (Hlist Hok1). cbn [app skipn] in Hlist. subst ps.
    assert (Hin : In p (pages w))
      by (unfold lookup in Hl; now apply find_some in Hl).
    destruct (map summary (pages w)) as [|q ps] eqn:Hmap.
    { apply map_eq_nil in Hmap. rewrite Hmap in Hin. destruct Hin. }
    cbv zeta in *. rewrite <- Hmap in *.
    cbn [fst snd trace world] in *.
    rewrite forallb_app in Hok. apply andb_true_iff in Hok as [Hok _].
    set (s0 := mkState (world s1)
                 (trace s1 ++ header (map summary (pages w)))) in *.
    assert (Hl0 : lookup id (world s0) = Some p)
      by (unfold lookup, s0; cbn [world]; now rewrite Hstore).
    destruct (fx_loop_writes id p (pages w) s0 Hl0 Hm Hok) as (tr & Htr & Hcase).
    unfold lookup in Hl. rewrite Hl in Hcase. destruct Hcase as (Hl2 & Hputs).
    split; [exact Hl2|].
    rewrite Htr. unfold s0. cbn [trace]. rewrite Hxs.
    rewrite !puts_to_app, Hputs.
    rewrite (quiet_puts_to id [banner]) by (repeat constructor).
    rewrite (quiet_puts_to id xs Hq), (quiet_puts_to id _ (quiet_header _)),
      (quiet_puts_to id _ quiet_footer).
    reflexivity.
  - intros _ Hok. cbn [snd trace] in Hok.
    rewrite forallb_app in Hok. apply andb_true_iff in Hok as [Hok _].
    destruct (Hlist Hok).
  - discriminate.
Qed.

(** ** Ids and titles *)












End FixtureFacts.

(* ================================================================== *)
(** * Runs computed on the fixture *)
(* ================================================================== *)

(** The scenario of the specification: page A gets one write, with version
    4 and the status block, a blank line and its old body; page B gets
    none. *)
Example scenario_two_pages :
  fst (Fixture.run 2 Fixture.two_pages) = Returns tt
  /\ puts (trace (snd (Fixture.run 2 Fixture.two_pages))) =
       [(page_url "1001",
         mkPayload 4 update_message "Page A" "page"
           (create_lambda_status_section +++ separator +++ "<p>old</p>")
           "storage")]
  /\ Fixture.pages (world (snd (Fixture.run 2 Fixture.two_pages))) =
       [Fixture.mkPage "1001" "Page A" 4
          (create_lambda_status_section +++ separator +++ "<p>old</p>");
        Fixture.page_B].
Proof. vm_compute. repeat split; reflexivity. Qed.

(* ================================================================== *)
(** * The properties of the publisher *)
(* ================================================================== *)

(** C1.  In every run, against every service and whatever the fuel, the
    update requests are exactly the answers to the fetches that came back
    without the marker: one request per such fetch, in the same order, to the
    URL that was fetched, with the fetched version plus one, the fixed message
    and type, and as body the status block, the separator of two line feeds
    and then the fetched body; a fetch that failed, or came back with a body
    that counts as false or with the marker, is answered by no request.  On the fixture service, after a run
    that returned and in which no exchange failed, a page that lacked the
    marker has been sent exactly one update request, and the service holds it
    with the status block and the separator in front of its old body and its
    version raised by one. *)
Theorem one_update_per_outdated_fetch :
  (forall (W : Type) (T : Transport W) (fuel : nat) (w : W),
     map put_core (puts (trace (snd (main T fuel (start w)))))
     = map expected_put
         (filter needs_update
            (fetch_replies (trace (snd (main T fuel (start w)))))))
  /\ (forall (w : Fixture.World) (fuel : nat) (id : string) (p : Fixture.Page),
        fst (Fixture.run fuel w) = Returns tt ->
        forallb obs_ok (trace (snd (Fixture.run fuel w))) = true ->
        Fixture.lookup id w = Some p ->
        str_in marker (Fixture.page_body p) = false ->
        Fixture.lookup id (world (snd (Fixture.run fuel w)))
        = Some (Fixture.mkPage id (Fixture.page_title p)
                  (Fixture.page_version p + 1)
                  (create_lambda_status_section +++ separator
                   +++ Fixture.page_body p))
        /\ puts_to id (trace (snd (Fixture.run fuel w)))
           = [(page_url id,
               mkPayload (Fixture.page_version p + 1) update_message
                 (Fixture.page_title p) "page"
                 (create_lambda_status_section +++ separator
                  +++ Fixture.page_body p)
                 "storage")]).
Proof.
  split.
  - intros W T fuel w.
    destruct (main T fuel (start w)) as [o s'] eqn:Hmain. cbn [snd].
    apply main_run_trace in Hmain.
    destruct (run_trace_loop o (trace s') Hmain) as (ps & t & Ht & -> & -> & _).
    exact (turns_puts ps t Ht).
  - intros w fuel id p Hret Hok Hl Hm.
    exact (fx_clean_run_writes w fuel id p Hret Hok Hl Hm).
Qed.

(** Page A of the scenario: one update request, version 4. *)
Lemma one_update_per_outdated_fetch_witness :
  fst (Fixture.run 2 Fixture.two_pages) = Returns tt
  /\ forallb obs_ok (trace (snd (Fixture.run 2 Fixture.two_pages))) = true
  /\ Fixture.lookup "1001" Fixture.two_pages = Some Fixture.page_A
  /\ str_in marker "<p>old</p>" = false
  /\ Fixture.lookup "1001" (world (snd (Fixture.run 2 Fixture.two_pages)))
     = Some (Fixture.mkPage "1001" "Page A" 4
               (create_lambda_status_section +++ separator +++ "<p>old</p>"))
  /\ puts_to "1001" (trace (snd (Fixture.run 2 Fixture.two_pages)))
     = [(page_url "1001",
         mkPayload 4 update_message "Page A" "page"
           (create_lambda_status_section +++ separator +++ "<p>old</p>")
           "storage")].
Proof.
  split; [vm_compute; reflexivity|].
  split; [vm_compute; reflexivity|].
  split; [reflexivity|].
  split; [vm_compute; reflexivity|].
  apply (proj2 one_update_per_outdated_fetch Fixture.two_pages 2 "1001"
           Fixture.page_A); vm_compute; reflexivity.
Defined.

(** C2.  Whatever the service, a turn of the update loop whose fetch comes
    back with the marker anywhere in the body (the body is some text, the
    marker, some text: the guard is plain substring containment) consists of
    that fetch and the line that reports the skip, and of no update request.
    On the fixture service, a page held with the marker in its body comes out
    of every run as it went in, whatever the fuel and the scheduled failures,
    and the run sends no update request to that page's URL. *)
Theorem marked_page_is_left_alone :
  (forall (W : Type) (T : Transport W) (p : PageSummary) (s : State W)
          (page : FullPage) (w' : W) (a b : string),
     get_content T (page_url (ps_id p)) content_params (world s)
     = (inr (Some page), w') ->
     fp_body page = a +++ marker +++ b ->
     main_loop_body T create_lambda_status_section p s
     = (Returns tt,
        mkState w'
          (trace s
           ++ [Http (ExFetch (page_url (ps_id p)) content_params (inr (Some page)));
               Printed ("⏭️  Skipping " +++ ps_title p
                        +++ " (already has latest update)")])))
  /\ (forall (w : Fixture.World) (fuel : nat) (id : string) (p : Fixture.Page)
             (a b : string),
        Fixture.lookup id w = Some p ->
        Fixture.page_body p = a +++ marker +++ b ->
        Fixture.lookup id (world (snd (Fixture.run fuel w))) = Some p
        /\ forall payload r,
             ~ In (Http (ExPut (page_url id) payload r))
                  (trace (snd (Fixture.run fuel w)))).
Proof.
  split.
  - intros W T p s page w' a b Hfetch Hbody.
    apply (turn_skipped_run T p s page w' Hfetch).
    apply str_in_spec. now exists a, b.
  - intros w fuel id p a b Hl Hbody.
    assert (Hm : str_in marker (Fixture.page_body p) = true)
      by (apply str_in_spec; now exists a, b).
    destruct (main_preserves Fixture.transport
                (fun w => Fixture.lookup id w = Some p) (not_put_to id))
      with (fuel := fuel) (w := w) as (Hi & Hq); try assumption.
    + intros line payload r. discriminate.
    + intros url params r payload r'. discriminate.
    + intros url params w0 H0. unfold Fixture.lookup in *.
      cbn [get_listing Fixture.transport].
      now rewrite (proj1 (fx_get_listing_store url params w0)).
    + intros q s H0. now apply fx_turn_keeps_marked.
    + split; [exact Hi|].
      intros payload r Hin. rewrite Forall_forall in Hq.
      exact (Hq _ Hin payload r eq_refl).
Qed.

(** Page B of the scenario. *)
Lemma marked_page_is_left_alone_witness :
  Fixture.lookup "1002" Fixture.two_pages = Some Fixture.page_B
  /\ Fixture.page_body Fixture.page_B
     = "<h2>Latest Updates - " +++ marker +++ "</h2>"
  /\ Fixture.lookup "1002" (world (snd (Fixture.run 2 Fixture.two_pages)))
     = Some Fixture.page_B
  /\ forall payload r,
       ~ In (Http (ExPut (page_url "1002") payload r))
            (trace (snd (Fixture.run 2 Fixture.two_pages))).
Proof.
  split; [reflexivity|]. split; [reflexivity|].
  apply (proj2 marked_page_is_left_alone Fixture.two_pages 2 "1002"
           Fixture.page_B "<h2>Latest Updates - " "</h2>"); reflexivity.
Defined.

(** C3, as amended.  When the first run against the fixture service returns
    and none of its exchanges failed (the listing, every fetch and every
    write), every page the service serves afterwards has the marker in its
    body, and a second run against the service as the first run left it sends
    no update request, whatever its fuel and whatever fails during it. *)
Theorem second_run_sends_no_update (w : Fixture.World) (fuel1 fuel2 : nat) :
  fst (Fixture.run fuel1 w) = Returns tt ->
  forallb obs_ok (trace (snd (Fixture.run fuel1 w))) = true ->
  Fixture.all_marked (world (snd (Fixture.run fuel1 w)))
  /\ puts (trace (snd (Fixture.run fuel2 (world (snd (Fixture.run fuel1 w)))))) = [].
Proof.
  intros Hret Hok.
  pose proof (fx_clean_run_marks_all w fuel1 Hret Hok) as Hall.
  split; [exact Hall | now apply fx_run_all_marked].
Qed.

Lemma second_run_sends_no_update_witness :
  fst (Fixture.run 2 Fixture.two_pages) = Returns tt
  /\ forallb obs_ok (trace (snd (Fixture.run 2 Fixture.two_pages))) = true
  /\ Fixture.all_marked (world (snd (Fixture.run 2 Fixture.two_pages)))
  /\ puts (trace (snd (Fixture.run 2
                         (world (snd (Fixture.run 2 Fixture.two_pages)))))) = [].
Proof.
  split; [vm_compute; reflexivity|].
  split; [vm_compute; reflexivity|].
  apply (second_run_sends_no_update Fixture.two_pages 2 2);
    vm_compute; reflexivity.
Defined.

(** C3 as stated fails.  Against [broken_fetch] the first run returns; its
    only write, to page C, succeeds; the fetch of page A failed, so page A is
    left without the marker; and the second run, against the service as the
    first left it, sends an update request for page A. *)
Lemma first_run_may_leave_a_page_unmarked :
  fst (Fixture.run 2 Fixture.broken_fetch) = Returns tt
  /\ put_replies (trace (snd (Fixture.run 2 Fixture.broken_fetch))) = [inr tt]
  /\ (exists p,
        Fixture.lookup "1001" (world (snd (Fixture.run 2 Fixture.broken_fetch)))
        = Some p
        /\ str_in marker (Fixture.page_body p) = false)
  /\ map fst (puts (trace (snd (Fixture.run 2
                 (world (snd (Fixture.run 2 Fixture.broken_fetch)))))))
     = [page_url "1001"].
Proof.
  split; [vm_compute; reflexivity|].
  split; [vm_compute; reflexivity|].
  split; [|vm_compute; reflexivity].
  exists Fixture.page_A. split; vm_compute; reflexivity.
Qed.

(** C4.  Whenever the conversation that starts at the content URL with the
    listing parameters and follows every [next] link closes with a response
    that has no link, [get_all_pages_in_space] terminates, with any fuel that
    covers the exchanges of the conversation: it holds exactly that
    conversation with the service, each later request going to the base URL
    followed by the link of the response before, and it returns the results of
    all the responses, concatenated in the order received. *)
Theorem listing_follows_next_links
    (W : Type) (T : Transport W) (key : string) (w w' : W) (xs tr : list Obs)
    (fuel : nat) :
  conversation T content_url (listing_params key) w xs Ended w' ->
  length xs <= fuel ->
  get_all_pages_in_space T fuel key (mkState w tr)
  = (Returns (listed xs), mkState w' (tr ++ xs)).
Proof.
  intros Hconv Hfuel.
  rewrite (get_all_pages_run T key w xs Ended w' fuel tr Hconv Hfuel).
  now rewrite app_nil_r.
Qed.

Lemma listing_follows_next_links_witness :
  exists xs,
    conversation Fixture.transport content_url (listing_params SPACE_KEY)
      Fixture.three_chunks xs Ended Fixture.three_chunks
    /\ length xs = 3
    /\ listed xs = map Fixture.summary (Fixture.pages Fixture.three_chunks)
    /\ get_all_pages_in_space Fixture.transport 3 SPACE_KEY
         (start Fixture.three_chunks)
       = (Returns (listed xs), mkState Fixture.three_chunks xs).
Proof.
  eexists. split.
  - eapply conv_next; [vm_compute; reflexivity | reflexivity |].
    eapply conv_next; [vm_compute; reflexivity | reflexivity |].
    eapply conv_last; [vm_compute; reflexivity | reflexivity].
  - split; [reflexivity|]. split; [reflexivity|].
    apply (listing_follows_next_links Fixture.World Fixture.transport SPACE_KEY
             Fixture.three_chunks Fixture.three_chunks _ [] 3).
    + eapply conv_next; [vm_compute; reflexivity | reflexivity |].
      eapply conv_next; [vm_compute; reflexivity | reflexivity |].
      eapply conv_last; [vm_compute; reflexivity | reflexivity].
    + cbn. lia.
Defined.

(** C5.  [update_page] sends one write request to the page's URL, carrying
    the known version plus one, the title, the type ["page"] and the new body
    whole, in storage representation.  It returns [True] exactly when the
    request succeeded and after printing the success line; on a failure it
    prints the error line, and the text of the response when the exception
    carries one, and returns [False] without raising.  And whatever happens in
    a turn of the update loop, a failed write included, the turn returns and
    the loop goes on with the pages that remain. *)
Theorem update_page_contract
    (W : Type) (T : Transport W) (page_id title content : string) (version : Z)
    (s : State W) (r : Reply unit) (w' : W) :
  put_content T (page_url page_id)
    (mkPayload (version + 1) update_message title "page" content "storage")
    (world s) = (r, w') ->
  update_page T page_id title content version s
  = (Returns (is_ok r),
     mkState w'
       (trace s
        ++ Http (ExPut (page_url page_id)
                   (mkPayload (version + 1) update_message title "page" content
                      "storage") r)
           :: match r with
              | inr _ => [Printed ("✅ Updated page: " +++ title)]
              | inl e =>
                  Printed ("❌ Error updating page " +++ title +++ ": "
                           +++ exc_str e)
                  :: match exc_response e with
                     | Some text => [Printed ("   Response: " +++ text)]
                     | None => []
                     end
              end))
  /\ forall (p : PageSummary) (rest : list PageSummary) (s0 : State W),
       exists s1,
         main_loop_body T create_lambda_status_section p s0 = (Returns tt, s1)
         /\ for_each (p :: rest) (main_loop_body T create_lambda_status_section) s0
            = for_each rest (main_loop_body T create_lambda_status_section) s1.
Proof.
  intros Hput. split.
  - exact (update_page_run T page_id title content version s r w' Hput).
  - intros p rest s0.
    destruct (body_turn T p s0) as (s1 & t & Hbody & _).
    exists s1. split; [exact Hbody|].
    cbn [for_each]. unfold bind at 1. now rewrite Hbody.
Qed.

(** The write for page A fails with a response: the request carries
    version 4, two lines are printed, and page C is written all the same. *)
Lemma update_page_contract_witness :
  put_content Fixture.transport (page_url "1001")
    (mkPayload (3 + 1) update_message "Page A" "page" "<p>new</p>" "storage")
    (Fixture.mkWorld [Fixture.page_A] 0 [Some Fixture.server_error])
  = (inl Fixture.server_error, Fixture.mkWorld [Fixture.page_A] 0 [])
  /\ update_page Fixture.transport "1001" "Page A" "<p>new</p>" 3
       (start (Fixture.mkWorld [Fixture.page_A] 0 [Some Fixture.server_error]))
     = (Returns false,
        mkState (Fixture.mkWorld [Fixture.page_A] 0 [])
          [Http (ExPut (page_url "1001")
                   (mkPayload 4 update_message "Page A" "page" "<p>new</p>"
                      "storage")
                   (inl Fixture.server_error));
           Printed ("❌ Error updating page Page A: "
                    +++ "500 Server Error: Internal Server Error");
           Printed "   Response: <html>oops</html>"])
  /\ map fst (puts (trace (snd (Fixture.run 1 Fixture.broken_write))))
     = [page_url "1001"; page_url "1003"].
Proof.
  split; [vm_compute; reflexivity|].
  split; [|vm_compute; reflexivity].
  apply (update_page_contract Fixture.World Fixture.transport "1001" "Page A"
           "<p>new</p>" 3
           (start (Fixture.mkWorld [Fixture.page_A] 0 [Some Fixture.server_error]))
           (inl Fixture.server_error) (Fixture.mkWorld [Fixture.page_A] 0 [])).
  vm_compute; reflexivity.
Defined.

(** C6.  When the listing conversation runs into a failure, after however
    many good responses, [get_all_pages_in_space] prints the error and
    returns the empty list, dropping what it had collected; [main] then prints
    that nothing was found and returns.  The run fetches no page and sends no
    update request. *)
Theorem failed_listing_makes_the_run_a_noop
    (W : Type) (T : Transport W) (w w' : W) (xs : list Obs)
    (e : RequestException) (fuel : nat) :
  conversation T content_url (listing_params SPACE_KEY) w xs (Failed e) w' ->
  length xs <= fuel ->
  get_all_pages_in_space T fuel SPACE_KEY (mkState w [banner])
  = (Returns [],
     mkState w' ([banner] ++ xs ++ [Printed ("Error fetching pages: " +++ exc_str e)]))
  /\ main T fuel (start w)
     = (Returns tt,
        mkState w'
          (banner :: xs
           ++ [Printed ("Error fetching pages: " +++ exc_str e);
               Printed "❌ No pages found or error occurred"]))
  /\ fetched (trace (snd (main T fuel (start w)))) = []
  /\ puts (trace (snd (main T fuel (start w)))) = [].
Proof.
  intros Hconv Hfuel.
  split; [exact (get_all_pages_run T SPACE_KEY w xs (Failed e) w' fuel [banner]
                   Hconv Hfuel)|].
  pose proof (main_run T fuel w xs (Failed e) w' Hconv Hfuel) as Hmain.
  split; [exact Hmain|].
  destruct (main T fuel (start w)) as [o s'] eqn:Hrun.
  pose proof (main_run_trace T fuel w o s' Hrun) as Hshape.
  injection Hmain as -> ->. cbn [snd trace].
  assert (Hq : quiet (banner :: xs ++ [listing_error e; no_pages])).
  { clear - Hconv. constructor; [exact I|]. apply quiet_app; [|repeat constructor].
    induction Hconv; repeat constructor; assumption. }
  destruct (quiet_silent _ Hq) as (Hf & _ & Hp & _). now split.
Qed.

Lemma failed_listing_makes_the_run_a_noop_witness :
  exists xs,
    conversation Fixture.transport content_url (listing_params SPACE_KEY)
      Fixture.broken_listing xs (Failed Fixture.server_error)
      Fixture.three_chunks
    /\ length xs = 2
    /\ listed xs = [Fixture.summary Fixture.page_A]
    /\ fst (get_all_pages_in_space Fixture.transport 2 SPACE_KEY
              (mkState Fixture.broken_listing [banner])) = Returns []
    /\ fetched (trace (snd (main Fixture.transport 2 (start Fixture.broken_listing))))
       = [].
Proof.
  eexists. split.
  - eapply conv_next; [vm_compute; reflexivity | reflexivity |].
    eapply conv_failed. vm_compute; reflexivity.
  - split; [reflexivity|]. split; [reflexivity|].
    destruct (failed_listing_makes_the_run_a_noop Fixture.World Fixture.transport
                Fixture.broken_listing Fixture.three_chunks _
                Fixture.server_error 2
                ltac:(eapply conv_next; [vm_compute; reflexivity | reflexivity |];
                      eapply conv_failed; vm_compute; reflexivity)
                ltac:(cbn; lia))
      as (Hlist & _ & Hfetched & _).
    split; [now rewrite Hlist | exact Hfetched].
Defined.

(** C7.  When the fetch of a page fails, [get_page_content] prints the error
    and returns the absent value; the turn for that page ends there, with no
    update request; and the update loop goes on from the state the failed
    fetch left: it returns, and on the way it fetches every page that remains,
    in order. *)
Theorem failed_fetch_skips_only_that_page
    (W : Type) (T : Transport W) (p : PageSummary) (rest : list PageSummary)
    (s : State W) (e : RequestException) (w' : W) :
  get_content T (page_url (ps_id p)) content_params (world s) = (inl e, w') ->
  let s1 :=
    mkState w'
      (trace s
       ++ [Http (ExFetch (page_url (ps_id p)) content_params (inl e));
           Printed ("Error fetching page " +++ ps_id p +++ ": " +++ exc_str e)]) in
  get_page_content T (ps_id p) s = (Returns None, s1)
  /\ main_loop_body T create_lambda_status_section p s = (Returns tt, s1)
  /\ for_each (p :: rest) (main_loop_body T create_lambda_status_section) s
     = for_each rest (main_loop_body T create_lambda_status_section) s1
  /\ exists s2 tr,
       for_each rest (main_loop_body T create_lambda_status_section) s1
       = (Returns tt, s2)
       /\ trace s2 = trace s1 ++ tr
       /\ fetched tr = map (fun q => page_url (ps_id q)) rest.
Proof.
  intros Hfetch s1.
  pose proof (turn_absent_run T p s e w' Hfetch) as Hturn. fold s1 in Hturn.
  split; [exact (get_page_content_run T (ps_id p) s (inl e) w' Hfetch)|].
  split; [exact Hturn|].
  split.
  - cbn [for_each]. unfold bind at 1. now rewrite Hturn.
  - destruct (loop_turns T rest s1) as (s2 & tr & Hloop & Htr & Hturns).
    exists s2, tr. repeat split; try assumption.
    now apply turns_fetched.
Qed.

(** The fetch of page A fails; page C is fetched and written all the same. *)
Lemma failed_fetch_skips_only_that_page_witness :
  get_content Fixture.transport (page_url "1001") content_params
    (Fixture.mkWorld [Fixture.page_A; Fixture.page_C] 1
       [Some Fixture.connection_aborted])
  = (inl Fixture.connection_aborted,
     Fixture.mkWorld [Fixture.page_A; Fixture.page_C] 1 [])
  /\ get_page_content Fixture.transport "1001"
       (start (Fixture.mkWorld [Fixture.page_A; Fixture.page_C] 1
                 [Some Fixture.connection_aborted]))
     = (Returns None,
        mkState (Fixture.mkWorld [Fixture.page_A; Fixture.page_C] 1 [])
          [Http (ExFetch (page_url "1001") content_params
                   (inl Fixture.connection_aborted));
           Printed "Error fetching page 1001: Connection aborted."])
  /\ map fst (puts (trace (snd (Fixture.run 1 Fixture.broken_fetch))))
     = [page_url "1003"].
Proof.
  split; [vm_compute; reflexivity|].
  split; [|vm_compute; reflexivity].
  apply (failed_fetch_skips_only_that_page Fixture.World Fixture.transport
           (Fixture.summary Fixture.page_A) [Fixture.summary Fixture.page_C]
           (start (Fixture.mkWorld [Fixture.page_A; Fixture.page_C] 1
                     [Some Fixture.connection_aborted]))
           Fixture.connection_aborted
           (Fixture.mkWorld [Fixture.page_A; Fixture.page_C] 1 [])).
  vm_compute; reflexivity.
Defined.

(** C9.  The marker that the skip guard looks for occurs in the status
    block, hence in every body made of the status block, the separator and an
    old body, hence in the body of every update request a run sends; and a
    page that is fetched with such a body is skipped. *)
Theorem every_update_carries_the_marker :
  str_in marker create_lambda_status_section = true
  /\ (forall old : string,
        str_in marker (create_lambda_status_section +++ separator +++ old) = true)
  /\ (forall (W : Type) (T : Transport W) (fuel : nat) (w : W) url payload,
        In (url, payload) (puts (trace (snd (main T fuel (start w))))) ->
        str_in marker (pl_body_value payload) = true)
  /\ (forall (W : Type) (T : Transport W) (p : PageSummary) (s : State W)
        page w' old,
        get_content T (page_url (ps_id p)) content_params (world s)
        = (inr (Some page), w') ->
        fp_body page = create_lambda_status_section +++ separator +++ old ->
        puts (trace (snd (main_loop_body T create_lambda_status_section p s)))
        = puts (trace s)).
Proof.
  split; [exact marker_in_block|].
  split; [exact marker_in_submitted|].
  split.
  - intros W T fuel w url payload Hin.
    destruct (main T fuel (start w)) as [o s'] eqn:Hrun. cbn [snd] in Hin.
    apply main_run_trace in Hrun.
    destruct (run_trace_loop o (trace s') Hrun) as (ps & t & Ht & Hputs & _).
    rewrite Hputs in Hin.
    destruct (turns_put_inv ps t url payload Ht Hin) as (q & page & _ & _ & ->).
    apply marker_in_submitted.
  - intros W T p s page w' old Hfetch Hbody.
    assert (Hm : str_in marker (fp_body page) = true)
      by (rewrite Hbody; apply marker_in_submitted).
    rewrite (turn_skipped_run T p s page w' Hfetch Hm). cbn [snd trace].
    rewrite puts_app. cbn. now rewrite app_nil_r.
Qed.

Lemma every_update_carries_the_marker_witness :
  In (page_url "1001",
      mkPayload 4 update_message "Page A" "page"
        (create_lambda_status_section +++ separator +++ "<p>old</p>") "storage")
     (puts (trace (snd (main Fixture.transport 2 (start Fixture.two_pages)))))
  /\ str_in marker
       (create_lambda_status_section +++ separator +++ "<p>old</p>") = true.
Proof.
  assert (Hin : In (page_url "1001",
                    mkPayload 4 update_message "Page A" "page"
                      (create_lambda_status_section +++ separator +++ "<p>old</p>")
                      "storage")
                   (puts (trace (snd (main Fixture.transport 2
                                        (start Fixture.two_pages))))))
    by (left; vm_compute; reflexivity).
  split; [exact Hin|].
  exact (proj1 (proj2 (proj2 every_update_carries_the_marker))
           Fixture.World Fixture.transport 2 Fixture.two_pages _ _ Hin).
Defined.




(* ================================================================== *)
(** * Further facts about traces *)
(* ================================================================== *)

Lemma listing_requests_app (a b : list Obs) :
  listing_requests (a ++ b) = listing_requests a ++ listing_requests b.
Proof. apply flat_map_app. Qed.

Lemma printed_app (a b : list Obs) : printed (a ++ b) = printed a ++ printed b.
Proof. apply flat_map_app. Qed.

(** Where an observation of one kind stands in a trace that opens, or
    closes, with observations of other kinds. *)
Lemma split_skip (f : Obs -> bool) (a b pre post : list Obs) (x : Obs) :
  Forall (fun o => f o = false) a -> f x = true ->
  a ++ b = pre ++ x :: post ->
  exists pre', pre = a ++ pre' /\ b = pre' ++ x :: post.
Proof.
  intros Ha Hx. revert pre. induction Ha as [|y a Hy _ IH]; intros pre H.
  - now exists pre.
  - destruct pre as [|z pre]; cbn [app] in H; injection H as <- H.
    + congruence.
    + destruct (IH pre H) as (pre' & -> & ->). now exists pre'.
Qed.

Lemma split_keep (f : Obs -> bool) (l c pre post : list Obs) (x : Obs) :
  Forall (fun o => f o = false) c -> f x = true ->
  l ++ c = pre ++ x :: post ->
  exists post', l = pre ++ x :: post' /\ post = post' ++ c.
Proof.
  intros Hc Hx. revert pre. induction l as [|y l IH]; intros pre H.
  - cbn [app] in H. subst c. apply Forall_app in Hc as [_ Hc].
    inversion Hc; congruence.
  - destruct pre as [|z pre]; cbn [app] in H; injection H as <- H.
    + exists l. now split.
    + destruct (IH pre H) as (post' & -> & ->). now exists post'.
Qed.

Lemma quiet_no_put (tr : list Obs) :
  quiet tr -> Forall (fun o => is_put o = false) tr.
Proof.
  apply Forall_impl. intros [line|[u q r|u q r|u pl r]]; cbn; tauto.
Qed.

Lemma printed_no_listing (ls : list Obs) :
  Forall (fun o => exists line, o = Printed line) ls ->
  Forall (fun o => is_listing o = false) ls.
Proof. apply Forall_impl. now intros o [line ->]. Qed.

Lemma update_log_printed (title : string) (r : Reply unit) :
  Forall (fun o => exists line, o = Printed line) (update_log title r).
Proof.
  destruct r as [e|u]; cbn [update_log]; [destruct (exc_response e)|];
    repeat constructor; eexists; reflexivity.
Qed.

Lemma turn_no_listing (p : PageSummary) (t : list Obs) :
  turn p t -> Forall (fun o => is_listing o = false) t.
Proof.
  intros [e| |page Hm|page r Hm]; repeat constructor.
  apply Forall_app. split; apply printed_no_listing.
  - apply update_log_printed.
  - destruct (is_ok r); repeat constructor; eexists; reflexivity.
Qed.

Lemma turns_no_listing (ps : list PageSummary) (tr : list Obs) :
  turns ps tr -> Forall (fun o => is_listing o = false) tr.
Proof.
  induction 1 as [|p ps t ts Ht _ IH]; [constructor|].
  apply Forall_app. split; [now apply (turn_no_listing p) | exact IH].
Qed.

Lemma header_no_listing (pages : list PageSummary) :
  Forall (fun o => is_listing o = false) (header pages).
Proof.
  unfold header. repeat (apply Forall_app; split); repeat constructor.
  apply Forall_forall. intros o Ho. now apply in_map_iff in Ho as (x & <- & _).
Qed.

Lemma no_listing_requests (tr : list Obs) :
  Forall (fun o => is_listing o = false) tr -> listing_requests tr = [].
Proof.
  induction 1 as [|o tr Ho _ IH]; [reflexivity|].
  destruct o as [line|[u q r|u q r|u pl r]]; try exact IH. discriminate.
Qed.

(** The context of a write in the update loop: the fetch of the same page
    stands right before it, its report right after it. *)
Lemma turns_put_context (ps : list PageSummary) (tr pre post : list Obs)
    (u : string) (pl : Payload) (r : Reply unit) :
  turns ps tr ->
  tr = pre ++ Http (ExPut u pl r) :: post ->
  exists pre' p page later post',
    In p ps
    /\ pre = pre' ++ [Http (ExFetch u content_params (inr (Some page)))]
    /\ u = page_url (ps_id p)
    /\ str_in marker (fp_body page) = false
    /\ pl = update_payload (ps_title p)
              (create_lambda_status_section +++ separator +++ fp_body page)
              (fp_version page)
    /\ turns later post'
    /\ post = write_report (ps_title p) (fp_version page) r ++ post'.
Proof.
  intros Hturns. revert pre.
  induction Hturns as [|p ps t ts Ht Hts IH]; intros pre H.
  - destruct pre; discriminate.
  - assert (Hlater : forall pre0, ts = pre0 ++ Http (ExPut u pl r) :: post ->
              exists pre' q page later post',
                In q (p :: ps)
                /\ t ++ pre0 = pre' ++ [Http (ExFetch u content_params (inr (Some page)))]
                /\ u = page_url (ps_id q)
                /\ str_in marker (fp_body page) = false
                /\ pl = update_payload (ps_title q)
                          (create_lambda_status_section +++ separator
                           +++ fp_body page) (fp_version page)
                /\ turns later post'
                /\ post = write_report (ps_title q) (fp_version page) r ++ post').
    { intros pre0 H0.
      destruct (IH pre0 H0) as (pre' & q & page & later & post' & Hq & -> & Hrest).
      exists (t ++ pre'), q, page, later, post'.
      split; [now right|]. split; [now rewrite app_assoc | exact Hrest]. }
    destruct Ht as [e| |page Hm|page r0 Hm].
    + apply (split_skip is_put) in H as (pre0 & -> & H0);
        [exact (Hlater pre0 H0) | repeat constructor | reflexivity].
    + apply (split_skip is_put) in H as (pre0 & -> & H0);
        [exact (Hlater pre0 H0) | repeat constructor | reflexivity].
    + apply (split_skip is_put) in H as (pre0 & -> & H0);
        [exact (Hlater pre0 H0) | repeat constructor | reflexivity].
    + cbn [app] in H.
      destruct pre as [|a pre]; cbn [app] in H; [discriminate|].
      injection H as <- H.
      destruct pre as [|b pre]; cbn [app] in H.
      * injection H as <- <- <- H.
        exists [], p, page, ps, ts. split; [now left|].
        repeat split; try assumption. symmetry. exact H.
      * injection H as <- H.
        apply (split_skip is_put) in H as (pre0 & -> & H0);
          [| apply quiet_no_put, turn_tail_quiet | reflexivity].
        destruct (Hlater pre0 H0)
          as (pre' & q & pg & later & post' & Hq & Hpre & Hrest).
        exists pre', q, pg, later, post'. split; [exact Hq|]. split; [|exact Hrest].
        rewrite <- Hpre. reflexivity.
Qed.

Lemma no_such_obs (f : Obs -> bool) (l pre post : list Obs) (x : Obs) :
  Forall (fun o => f o = false) l -> f x = true -> l <> pre ++ x :: post.
Proof.
  intros Hl Hx ->. apply Forall_app in Hl as [_ Hl]. inversion Hl; congruence.
Qed.

(** The context of a write in a run. *)
Lemma run_put_context (o : Outcome unit) (tr pre post : list Obs)
    (u : string) (pl : Payload) (r : Reply unit) :
  run_trace o tr ->
  tr = pre ++ Http (ExPut u pl r) :: post ->
  exists pre' p page post',
    In p (listed tr)
    /\ pre = pre' ++ [Http (ExFetch u content_params (inr (Some page)))]
    /\ u = page_url (ps_id p)
    /\ str_in marker (fp_body page) = false
    /\ pl = update_payload (ps_title p)
              (create_lambda_status_section +++ separator +++ fp_body page)
              (fp_version page)
    /\ rest_of_run post'
    /\ post = write_report (ps_title p) (fp_version page) r ++ post'.
Proof.
  intros [xs Hq | xs e Hq | xs Hq Hl | xs t Hq Hne Hf Ht] H.
  - exfalso. revert H. apply (no_such_obs is_put); [|reflexivity].
    apply quiet_no_put. now constructor.
  - exfalso. revert H. apply (no_such_obs is_put); [|reflexivity].
    apply quiet_no_put. constructor; [exact I|].
    apply quiet_app; [exact Hq | repeat constructor].
  - exfalso. revert H. apply (no_such_obs is_put); [|reflexivity].
    apply quiet_no_put. constructor; [exact I|].
    apply quiet_app; [exact Hq | repeat constructor].
  - change (banner :: xs ++ header (listed xs) ++ t ++ footer)
      with ((banner :: xs) ++ header (listed xs) ++ t ++ footer) in *.
    rewrite (app_assoc (banner :: xs)) in H.
    apply (split_skip is_put) in H as (pre0 & -> & H);
      [| apply quiet_no_put, quiet_app;
         [constructor; [exact I | exact Hq] | apply quiet_header]
       | reflexivity].
    apply (split_keep is_put) in H as (post0 & H & ->);
      [| apply quiet_no_put, quiet_footer | reflexivity].
    destruct (turns_put_context _ _ _ _ _ _ _ Ht H)
      as (pre' & p & page & later & post' & Hp & -> & Hrest).
    exists (((banner :: xs) ++ header (listed xs)) ++ pre'), p, page,
      (post' ++ footer).
    split.
    { rewrite listed_app. apply in_or_app. left. exact Hp. }
    split; [now rewrite !app_assoc|].
    destruct Hrest as (Hu & Hm & Hpl & Hlater & ->).
    split; [exact Hu|]. split; [exact Hm|]. split; [exact Hpl|].
    split; [now exists later, post' | now rewrite <- !app_assoc].
Qed.

Lemma fetch_replies_le_fetched (tr : list Obs) :
  length (fetch_replies tr) <= length (fetched tr).
Proof.
  induction tr as [|o tr IH]; [reflexivity|].
  unfold fetch_replies, fetched in *.
  destruct o as [line|[u q r|u q [e|[page|]]|u pl r]];
    cbn [flat_map app length] in *; lia.
Qed.

(** The listing loop sends a chain of requests, whatever the fuel. *)
Lemma listing_loop_follows {W : Type} (T : Transport W) fuel url params acc
    (s : State W) :
  exists xs,
    trace (snd (listing_loop T fuel url params acc s)) = trace s ++ xs
    /\ follows url params (listing_requests xs).
Proof.
  revert url params acc s. induction fuel as [|fuel IH]; intros url params acc s.
  - exists []. cbn. now rewrite app_nil_r.
  - cbn [listing_loop]. unfold bind, request_listing.
    destruct (get_listing T url params (world s)) as [[e|data] w'] eqn:Hg;
      cbn [of_reply].
    + exists [Http (ExList url params (inl e))]. cbn. repeat split.
    + destruct (next_link data) as [next|] eqn:Hn.
      * destruct (IH (CONFLUENCE_BASE_URL +++ next) [] (acc ++ results data)
                    (mkState w' (trace s ++ [Http (ExList url params (inr data))])))
          as (xs & Htr & Hfol).
        exists (Http (ExList url params (inr data)) :: xs). split.
        -- rewrite Htr. cbn [trace]. now rewrite <- app_assoc.
        -- change (listing_requests (Http (ExList url params (inr data)) :: xs))
             with ((url, params, inr data) :: listing_requests xs).
           cbn [follows]. rewrite Hn. repeat split. exact Hfol.
      * exists [Http (ExList url params (inr data))]. unfold ret.
        cbn [snd trace]. split; [reflexivity|].
        cbn [listing_requests flat_map app follows]. rewrite Hn. repeat split.
Qed.

Lemma conversation_quiet {W : Type} (T : Transport W) url params w xs ending w' :
  conversation T url params w xs ending w' -> quiet xs /\ printed xs = [].
Proof.
  induction 1 as [| | url params w data w' next xs ending w'' _ _ _ [IHq IHp]].
  - split; [repeat constructor | reflexivity].
  - split; [repeat constructor | reflexivity].
  - split; [constructor; [exact I | exact IHq] | exact IHp].
Qed.

(** Against a service whose every listing response carries a link, the
    listing loop uses up any fuel, one request per unit. *)
Lemma listing_loop_endless {W : Type} (T : Transport W) :
  (forall url params w, exists data next w',
      get_listing T url params w = (inr data, w') /\ next_link data = Some next) ->
  forall fuel url params acc (s : State W),
    fst (listing_loop T fuel url params acc s) = OutOfFuel
    /\ exists xs,
         trace (snd (listing_loop T fuel url params acc s)) = trace s ++ xs
         /\ quiet xs /\ length (listing_requests xs) = fuel.
Proof.
  intros Hlink. induction fuel as [|fuel IH]; intros url params acc s.
  - split; [reflexivity|]. exists []. cbn. rewrite app_nil_r.
    repeat split. constructor.
  - cbn [listing_loop]. unfold bind, request_listing.
    destruct (Hlink url params (world s)) as (data & next & w' & -> & Hn).
    cbn [of_reply]. rewrite Hn.
    destruct (IH (CONFLUENCE_BASE_URL +++ next) [] (acc ++ results data)
                (mkState w' (trace s ++ [Http (ExList url params (inr data))])))
      as (Hout & xs & Htr & Hq & Hlen).
    split; [exact Hout|].
    exists (Http (ExList url params (inr data)) :: xs). split; [|split].
    + rewrite Htr. cbn [trace]. now rewrite <- app_assoc.
    + constructor; [exact I | exact Hq].
    + change (listing_requests (Http (ExList url params (inr data)) :: xs))
        with ((url, params, inr data) :: listing_requests xs).
      cbn [length]. now rewrite Hlen.
Qed.

(* ================================================================== *)
(** * Further properties of the publisher *)
(* ================================================================== *)

(** X1.  The listing requests of [get_all_pages_in_space] form a chain: the
    first goes to the content URL with the space key, the limit and the
    expansion as parameters; every later one goes to the base URL followed by
    the [next] link of the reply before it, with no parameters at all; nothing
    is requested after a failure or after a reply without a link.  The
    listing requests of a whole run of [main] are such a chain for the
    configured space: the listing is read once. *)
Theorem listing_requests_form_a_chain :
  (forall (W : Type) (T : Transport W) (fuel : nat) (key : string) (s : State W),
     exists xs,
       trace (snd (get_all_pages_in_space T fuel key s)) = trace s ++ xs
       /\ follows content_url
            [("spaceKey", key); ("limit", "100"); ("expand", "version,body.storage")]
            (listing_requests xs))
  /\ (forall (W : Type) (T : Transport W) (fuel : nat) (w : W),
        follows content_url (listing_params SPACE_KEY)
          (listing_requests (trace (snd (main T fuel (start w)))))).
Proof.
  split.
  - intros W T fuel key s. unfold get_all_pages_in_space, try_except.
    destruct (listing_loop_follows T fuel content_url (listing_params key) [] s)
      as (xs & Htr & Hfol).
    destruct (listing_loop T fuel content_url (listing_params key) [] s)
      as [[ps|e|] s1]; cbn [snd] in Htr.
    + now exists xs.
    + exists (xs ++ [Printed ("Error fetching pages: " +++ exc_str e)]).
      unfold bind, print, emit, ret. cbn [snd world trace].
      split; [now rewrite Htr, <- app_assoc|].
      rewrite listing_requests_app.
      rewrite (no_listing_requests [Printed _]) by (repeat constructor).
      now rewrite app_nil_r.
    + now exists xs.
  - intros W T fuel w. rewrite main_unfold.
    destruct (listing_loop_follows T fuel content_url (listing_params SPACE_KEY)
                [] (mkState w [banner])) as (xs & Htr & Hfol).
    assert (Hb : listing_requests [banner] = []) by reflexivity.
    destruct (listing_loop T fuel content_url (listing_params SPACE_KEY) []
                (mkState w [banner])) as [[ps|e|] s1]; cbn [snd trace] in Htr.
    + destruct ps as [|p ps].
      * cbn [snd trace]. rewrite Htr, !listing_requests_app, Hb.
        rewrite (no_listing_requests [no_pages]) by (repeat constructor).
        cbn [app]. now rewrite app_nil_r.
      * cbv zeta. cbn [snd trace].
        destruct (loop_turns T (p :: ps)
                    (mkState (world s1) (trace s1 ++ header (p :: ps))))
          as (s2 & tr & Hloop & Htr2 & Hturns).
        rewrite Hloop. cbn [snd]. rewrite Htr2. cbn [trace]. rewrite Htr.
        rewrite !listing_requests_app, Hb.
        rewrite (no_listing_requests _ (header_no_listing _)),
          (no_listing_requests _ (turns_no_listing _ _ Hturns)).
        rewrite (no_listing_requests footer) by (repeat constructor).
        cbn [app]. now rewrite !app_nil_r.
    + cbn [snd trace]. rewrite Htr, !listing_requests_app, Hb.
      rewrite (no_listing_requests [listing_error e; no_pages])
        by (repeat constructor).
      cbn [app]. now rewrite app_nil_r.
    + cbn [snd]. rewrite Htr, listing_requests_app, Hb. exact Hfol.
Qed.

(** X2.  The listing loop has no bound of its own.  Against a service whose
    every listing response carries a [next] link, [main] never gets past the
    listing: whatever the fuel, the run is cut off in the listing after
    exactly as many listing requests as there was fuel, and no page is
    fetched. *)
Theorem endless_listing_never_returns
    (W : Type) (T : Transport W) (fuel : nat) (w : W) :
  (forall url params w0, exists data next w',
      get_listing T url params w0 = (inr data, w') /\ next_link data = Some next) ->
  fst (main T fuel (start w)) = OutOfFuel
  /\ length (listing_requests (trace (snd (main T fuel (start w))))) = fuel
  /\ fetched (trace (snd (main T fuel (start w)))) = [].
Proof.
  intros Hlink. rewrite main_unfold.
  destruct (listing_loop_endless T Hlink fuel content_url
              (listing_params SPACE_KEY) [] (mkState w [banner]))
    as (Hout & xs & Htr & Hq & Hlen).
  destruct (listing_loop T fuel content_url (listing_params SPACE_KEY) []
              (mkState w [banner])) as [[ps|e|] s1]; cbn [fst] in Hout;
    try discriminate.
  cbn [fst snd trace] in *. rewrite Htr. split; [reflexivity|].
  rewrite listing_requests_app, fetched_app.
  destruct (quiet_silent _ Hq) as (-> & _). now split.
Qed.

Lemma endless_listing_never_returns_witness :
  (forall url params w0, exists data next w',
      get_listing endless_listing url params w0 = (inr data, w')
      /\ next_link data = Some next)
  /\ fst (main endless_listing 7 (start tt)) = OutOfFuel
  /\ length (listing_requests (trace (snd (main endless_listing 7 (start tt))))) = 7
  /\ fetched (trace (snd (main endless_listing 7 (start tt)))) = [].
Proof.
  assert (H : forall url params w0, exists data next w',
             get_listing endless_listing url params w0 = (inr data, w')
             /\ next_link data = Some next).
  { intros url params w0. eexists _, _, _. split; reflexivity. }
  split; [exact H|].
  exact (endless_listing_never_returns unit endless_listing 7 tt H).
Defined.

(** X3.  A space without pages: when the listing ends without a failure and
    without a single result, [main] prints the opening line and the line that
    no pages were found, and nothing else; it returns without fetching
    anything.  The report is the one a failed listing ends with. *)
Theorem empty_space_is_reported_as_no_pages
    (W : Type) (T : Transport W) (fuel : nat) (w w' : W) (xs : list Obs) :
  conversation T content_url (listing_params SPACE_KEY) w xs Ended w' ->
  length xs <= fuel ->
  listed xs = [] ->
  main T fuel (start w) = (Returns tt, mkState w' (banner :: xs ++ [no_pages]))
  /\ printed (trace (snd (main T fuel (start w))))
     = ["🔍 Fetching pages from Confluence space...";
        "❌ No pages found or error occurred"]
  /\ fetched (trace (snd (main T fuel (start w)))) = [].
Proof.
  intros Hconv Hfuel Hnone.
  pose proof (main_run T fuel w xs Ended w' Hconv Hfuel) as Hmain.
  rewrite Hnone in Hmain. rewrite Hmain. cbn [snd trace].
  destruct (conversation_quiet T _ _ _ _ _ _ Hconv) as [Hq Hp].
  split; [reflexivity|]. split.
  - change (banner :: xs ++ [no_pages]) with ([banner] ++ xs ++ [no_pages]).
    rewrite !printed_app, Hp. reflexivity.
  - change (banner :: xs ++ [no_pages]) with ([banner] ++ xs ++ [no_pages]).
    rewrite !fetched_app. destruct (quiet_silent _ Hq) as (-> & _). reflexivity.
Qed.

Lemma empty_space_is_reported_as_no_pages_witness :
  exists xs,
    conversation Fixture.transport content_url (listing_params SPACE_KEY)
      empty_space xs Ended empty_space
    /\ length xs = 1
    /\ listed xs = []
    /\ printed (trace (snd (main Fixture.transport 1 (start empty_space))))
       = ["🔍 Fetching pages from Confluence space...";
          "❌ No pages found or error occurred"].
Proof.
  eexists. split.
  - eapply conv_last; [vm_compute; reflexivity | reflexivity].
  - split; [reflexivity|]. split; [reflexivity|].
    refine (proj1 (proj2 (empty_space_is_reported_as_no_pages Fixture.World
              Fixture.transport 1 empty_space empty_space _ _ _ _))).
    + eapply conv_last; [vm_compute; reflexivity | reflexivity].
    + cbn. lia.
    + reflexivity.
Defined.

(** The pages a run fetches, when its listing ends without a failure. *)
Lemma main_fetches_listed {W : Type} (T : Transport W) (fuel : nat) (w w' : W)
    (xs : list Obs) :
  conversation T content_url (listing_params SPACE_KEY) w xs Ended w' ->
  length xs <= fuel ->
  fetched (trace (snd (main T fuel (start w))))
  = map (fun p => page_url (ps_id p)) (listed xs).
Proof.
  intros Hconv Hfuel.
  rewrite (main_run T fuel w xs Ended w' Hconv Hfuel).
  destruct (conversation_quiet T _ _ _ _ _ _ Hconv) as [Hq _].
  destruct (quiet_silent _ Hq) as (Hfx & _).
  destruct (listed xs) as [|p ps] eqn:Hl.
  - cbn [fst snd trace].
    change (banner :: xs ++ [no_pages]) with ([banner] ++ xs ++ [no_pages]).
    now rewrite !fetched_app, Hfx.
  - cbv zeta. cbn [fst snd trace].
    destruct (loop_turns T (p :: ps)
                (mkState w' (banner :: xs ++ header (p :: ps))))
      as (s2 & tr & Hloop & Htr & Hturns).
    rewrite Hloop. cbn [snd]. rewrite Htr. cbn [trace].
    change (banner :: xs ++ header (p :: ps))
      with ([banner] ++ xs ++ header (p :: ps)).
    rewrite !fetched_app, Hfx.
    destruct (quiet_silent _ (quiet_header (p :: ps))) as (-> & _).
    destruct (quiet_silent _ quiet_footer) as (-> & _).
    rewrite (turns_fetched _ _ Hturns). cbn [app fetched flat_map].
    now rewrite app_nil_r.
Qed.

(** X4.  When the listing ends without a failure, [main] fetches every page
    the listing delivered, once each and in the order delivered, a page listed
    twice being fetched twice, and fetches nothing else; failures of fetches
    and writes on the way change nothing in that. *)
Theorem every_listed_page_is_fetched_once
    (W : Type) (T : Transport W) (fuel : nat) (w w' : W) (xs : list Obs) :
  conversation T content_url (listing_params SPACE_KEY) w xs Ended w' ->
  length xs <= fuel ->
  fst (main T fuel (start w)) = Returns tt
  /\ fetched (trace (snd (main T fuel (start w))))
     = map (fun p => page_url (ps_id p)) (listed xs).
Proof.
  intros Hconv Hfuel.
  split; [|exact (main_fetches_listed T fuel w w' xs Hconv Hfuel)].
  rewrite (main_run T fuel w xs Ended w' Hconv Hfuel).
  now destruct (listed xs).
Qed.

(** Both writes fail; both pages are fetched all the same. *)
Lemma every_listed_page_is_fetched_once_witness :
  exists xs,
    conversation Fixture.transport content_url (listing_params SPACE_KEY)
      all_writes_fail xs Ended
      (Fixture.mkWorld [Fixture.page_A; Fixture.page_C] 1
         [None; Some Fixture.server_error; None; Some Fixture.connection_aborted])
    /\ length xs = 1
    /\ put_replies (trace (snd (main Fixture.transport 1 (start all_writes_fail))))
       = [inl Fixture.server_error; inl Fixture.connection_aborted]
    /\ fetched (trace (snd (main Fixture.transport 1 (start all_writes_fail))))
       = [page_url "1001"; page_url "1003"].
Proof.
  eexists.
  match goal with |- ?C /\ _ => assert (Hc : C) end.
  { eapply conv_last; [vm_compute; reflexivity | reflexivity]. }
  split; [exact Hc|]. split; [reflexivity|]. split; [vm_compute; reflexivity|].
  rewrite (proj2 (every_listed_page_is_fetched_once Fixture.World
                    Fixture.transport 1 all_writes_fail _ _ Hc
                    ltac:(cbn; lia))).
  reflexivity.
Defined.

(** X5.  [main] never writes blind.  In every run, right before an update
    request stands the successful fetch of the same URL, with no request in
    between; the fetched body lacks the marker; and the update carries the
    version of that fetch plus one and the status block, the separator and the
    body of that fetch. *)
Theorem every_write_follows_its_fetch
    (W : Type) (T : Transport W) (fuel : nat) (w : W)
    (pre post : list Obs) (url : string) (payload : Payload) (r : Reply unit) :
  trace (snd (main T fuel (start w))) = pre ++ Http (ExPut url payload r) :: post ->
  exists pre' page,
    pre = pre' ++ [Http (ExFetch url content_params (inr (Some page)))]
    /\ str_in marker (fp_body page) = false
    /\ pl_version_number payload = (fp_version page + 1)%Z
    /\ pl_body_value payload
       = create_lambda_status_section +++ separator +++ fp_body page.
Proof.
  intros Htrace.
  destruct (main T fuel (start w)) as [o s'] eqn:Hrun. cbn [snd] in Htrace.
  apply main_run_trace in Hrun.
  destruct (run_put_context o (trace s') pre post url payload r Hrun Htrace)
    as (pre' & p & page & post' & _ & Hpre & _ & Hm & -> & _).
  exists pre', page. now repeat split.
Qed.

(** The write to page A in the scenario of the specification. *)
Lemma every_write_follows_its_fetch_witness :
  trace (snd (main Fixture.transport 2 (start Fixture.two_pages)))
  = firstn 11 (trace (snd (main Fixture.transport 2 (start Fixture.two_pages))))
    ++ Http (ExPut (page_url "1001")
               (mkPayload 4 update_message "Page A" "page"
                  (create_lambda_status_section +++ separator +++ "<p>old</p>")
                  "storage")
               (inr tt))
       :: skipn 12 (trace (snd (main Fixture.transport 2 (start Fixture.two_pages))))
  /\ exists pre' page,
       firstn 11 (trace (snd (main Fixture.transport 2 (start Fixture.two_pages))))
       = pre' ++ [Http (ExFetch (page_url "1001") content_params (inr (Some page)))]
       /\ str_in marker (fp_body page) = false
       /\ 4%Z = (fp_version page + 1)%Z
       /\ create_lambda_status_section +++ separator +++ "<p>old</p>"
          = create_lambda_status_section +++ separator +++ fp_body page.
Proof.
  assert (H : trace (snd (main Fixture.transport 2 (start Fixture.two_pages)))
              = firstn 11 (trace (snd (main Fixture.transport 2
                                         (start Fixture.two_pages))))
                ++ Http (ExPut (page_url "1001")
                           (mkPayload 4 update_message "Page A" "page"
                              (create_lambda_status_section +++ separator
                               +++ "<p>old</p>")
                              "storage")
                           (inr tt))
                   :: skipn 12 (trace (snd (main Fixture.transport 2
                                              (start Fixture.two_pages)))))
    by (vm_compute; reflexivity).
  split; [exact H|].
  exact (every_write_follows_its_fetch Fixture.World Fixture.transport 2
           Fixture.two_pages _ _ _ _ _ H).
Defined.

(** X6.  Nothing is retried.  In every run there are at most as many update
    requests as fetches that succeeded, and at most as many fetches as the
    listing delivered pages. *)
Theorem no_request_is_repeated
    (W : Type) (T : Transport W) (fuel : nat) (w : W) :
  length (puts (trace (snd (main T fuel (start w)))))
  <= length (fetch_replies (trace (snd (main T fuel (start w)))))
  /\ length (fetch_replies (trace (snd (main T fuel (start w)))))
     <= length (fetched (trace (snd (main T fuel (start w)))))
  /\ length (fetched (trace (snd (main T fuel (start w)))))
     <= length (listed (trace (snd (main T fuel (start w))))).
Proof.
  destruct (main T fuel (start w)) as [o s'] eqn:Hrun. cbn [snd].
  apply main_run_trace in Hrun.
  split; [|split].
  - destruct (run_trace_loop o (trace s') Hrun) as (ps & t & Ht & -> & -> & _).
    rewrite <- (length_map put_core), (turns_puts ps t Ht), length_map.
    apply filter_length_le.
  - apply fetch_replies_le_fetched.
  - destruct Hrun as [xs Hq | xs e Hq | xs Hq Hl | xs t Hq Hne Hf Ht].
    + assert (Hall : quiet (banner :: xs)) by now constructor.
      destruct (quiet_silent _ Hall) as (-> & _). apply Nat.le_0_l.
    + assert (Hall : quiet (banner :: xs ++ [listing_error e; no_pages])).
      { constructor; [exact I|]. apply quiet_app; [exact Hq | repeat constructor]. }
      destruct (quiet_silent _ Hall) as (-> & _). apply Nat.le_0_l.
    + assert (Hall : quiet (banner :: xs ++ [no_pages])).
      { constructor; [exact I|]. apply quiet_app; [exact Hq | repeat constructor]. }
      destruct (quiet_silent _ Hall) as (-> & _). apply Nat.le_0_l.
    + change (banner :: xs ++ header (listed xs) ++ t ++ footer)
        with ([banner] ++ xs ++ header (listed xs) ++ t ++ footer).
      rewrite !fetched_app, !listed_app, Hf.
      destruct (quiet_silent _ (quiet_header (listed xs))) as (-> & _).
      destruct (quiet_silent _ quiet_footer) as (-> & _).
      rewrite (turns_fetched _ _ Ht). cbn [fetched flat_map banner app].
      rewrite app_nil_r, length_map, !length_app. lia.
Qed.

(** X7.  The closing lines do not depend on how the updates went.  When the
    listing ends without a failure and delivers at least one page, [main]
    returns and the last three lines it prints are the rule, "Confluence
    update complete!" and the rule, whatever failed among the fetches and the
    writes, even when every write failed. *)
Theorem completion_is_reported_whatever_failed
    (W : Type) (T : Transport W) (fuel : nat) (w w' : W) (xs : list Obs) :
  conversation T content_url (listing_params SPACE_KEY) w xs Ended w' ->
  length xs <= fuel ->
  listed xs <> [] ->
  fst (main T fuel (start w)) = Returns tt
  /\ exists before,
       trace (snd (main T fuel (start w)))
       = before
         ++ [Printed (str_mul "=" 60);
             Printed "✅ Confluence update complete!";
             Printed (str_mul "=" 60)].
Proof.
  intros Hconv Hfuel Hne.
  rewrite (main_run T fuel w xs Ended w' Hconv Hfuel).
  destruct (listed xs) as [|p ps]; [contradiction|].
  cbv zeta. cbn [fst snd trace]. split; [reflexivity|].
  eexists. reflexivity.
Qed.

(** Both writes fail; the run closes with the completion lines. *)
Lemma completion_is_reported_whatever_failed_witness :
  exists xs,
    conversation Fixture.transport content_url (listing_params SPACE_KEY)
      all_writes_fail xs Ended
      (Fixture.mkWorld [Fixture.page_A; Fixture.page_C] 1
         [None; Some Fixture.server_error; None; Some Fixture.connection_aborted])
    /\ length xs = 1
    /\ listed xs <> []
    /\ put_replies (trace (snd (main Fixture.transport 1 (start all_writes_fail))))
       = [inl Fixture.server_error; inl Fixture.connection_aborted]
    /\ exists before,
         trace (snd (main Fixture.transport 1 (start all_writes_fail)))
         = before
           ++ [Printed (str_mul "=" 60);
               Printed "✅ Confluence update complete!";
               Printed (str_mul "=" 60)].
Proof.
  eexists.
  match goal with |- ?C /\ _ => assert (Hc : C) end.
  { eapply conv_last; [vm_compute; reflexivity | reflexivity]. }
  split; [exact Hc|]. split; [reflexivity|]. split; [discriminate|].
  split; [vm_compute; reflexivity|].
  refine (proj2 (completion_is_reported_whatever_failed Fixture.World
            Fixture.transport 1 all_writes_fail _ _ Hc _ _)).
  - cbn. lia.
  - discriminate.
Defined.

(** X8.  The listing is complete before the first page is touched: in every
    run, nothing is fetched and nothing is written before a listing request.
    The update loop works on the pages as listed at the start and never lists
    again. *)
Theorem listing_comes_before_every_page
    (W : Type) (T : Transport W) (fuel : nat) (w : W)
    (pre post : list Obs) (url : string) (params : Params) (r : Reply Listing) :
  trace (snd (main T fuel (start w))) = pre ++ Http (ExList url params r) :: post ->
  fetched pre = [] /\ puts pre = [].
Proof.
  intros Htrace.
  destruct (main T fuel (start w)) as [o s'] eqn:Hrun. cbn [snd] in Htrace.
  apply main_run_trace in Hrun.
  assert (Hprefix : forall xs rest,
            quiet xs ->
            Forall (fun o => is_listing o = false) rest ->
            (banner :: xs) ++ rest = pre ++ Http (ExList url params r) :: post ->
            fetched pre = [] /\ puts pre = []).
  { intros xs rest Hq Hrest H.
    apply (split_keep is_listing) in H as (post' & H & _);
      [| exact Hrest | reflexivity].
    assert (Hall : quiet (pre ++ Http (ExList url params r) :: post'))
      by (rewrite <- H; now constructor).
    apply Forall_app in Hall as [Hpre _].
    destruct (quiet_silent _ Hpre) as (Hf & _ & Hp & _). now split. }
  destruct Hrun as [xs Hq | xs e Hq | xs Hq Hl | xs t Hq Hne Hf Ht].
  - apply (Hprefix xs [] Hq); [constructor | now rewrite app_nil_r].
  - apply (Hprefix xs [listing_error e; no_pages] Hq); [repeat constructor|].
    now rewrite <- Htrace.
  - apply (Hprefix xs [no_pages] Hq); [repeat constructor|].
    now rewrite <- Htrace.
  - apply (Hprefix xs (header (listed xs) ++ t ++ footer) Hq);
      [|now rewrite <- Htrace].
    apply Forall_app. split; [apply header_no_listing|].
    apply Forall_app. split; [now apply (turns_no_listing (listed xs))|].
    repeat constructor.
Qed.

(** The second listing request of the three-chunk fixture: nothing fetched
    before it. *)
Lemma listing_comes_before_every_page_witness :
  trace (snd (main Fixture.transport 3 (start Fixture.three_chunks)))
  = firstn 2 (trace (snd (main Fixture.transport 3 (start Fixture.three_chunks))))
    ++ Http (ExList (CONFLUENCE_BASE_URL +++ Fixture.next_path 1) []
               (inr (Fixture.listing_at Fixture.three_chunks 1)))
       :: skipn 3 (trace (snd (main Fixture.transport 3 (start Fixture.three_chunks))))
  /\ fetched (firstn 2 (trace (snd (main Fixture.transport 3
                                      (start Fixture.three_chunks))))) = []
  /\ puts (firstn 2 (trace (snd (main Fixture.transport 3
                                   (start Fixture.three_chunks))))) = [].
Proof.
  assert (H : trace (snd (main Fixture.transport 3 (start Fixture.three_chunks)))
              = firstn 2 (trace (snd (main Fixture.transport 3
                                        (start Fixture.three_chunks))))
                ++ Http (ExList (CONFLUENCE_BASE_URL +++ Fixture.next_path 1) []
                           (inr (Fixture.listing_at Fixture.three_chunks 1)))
                   :: skipn 3 (trace (snd (main Fixture.transport 3
                                             (start Fixture.three_chunks)))))
    by (vm_compute; reflexivity).
  split; [exact H|].
  exact (listing_comes_before_every_page Fixture.World Fixture.transport 3
           Fixture.three_chunks _ _ _ _ _ H).
Defined.

(** The rest of a run is the closing lines, or it opens with the fetch of
    the next page. *)
Lemma rest_of_run_opens (rest : list Obs) :
  rest_of_run rest ->
  rest = footer
  \/ exists p r rest',
       rest = Http (ExFetch (page_url (ps_id p)) content_params r) :: rest'.
Proof.
  intros (later & ts & Hturns & ->).
  destruct Hturns as [|p ps t ts [e| |page Hm|page r Hm] Hts];
    [now left | right ..]; exists p; eexists _, _; reflexivity.
Qed.

(** X9.  Every write is reported on the spot, and by nothing more.  In every
    run, right after an update request come the lines about it: after a
    success the line that the page was updated and the line with the old and
    the new version; after a failure the error line, then the text of the
    response when the exception carries one and no such line when it carries
    none, and no version line.  What follows these lines is the rest of the
    run: the turns of the pages still to come and the closing lines, so the
    next observation is the fetch of the next page, or the first of the
    closing lines. *)
Theorem every_write_is_reported_at_once
    (W : Type) (T : Transport W) (fuel : nat) (w : W)
    (pre post : list Obs) (url : string) (payload : Payload) (r : Reply unit) :
  trace (snd (main T fuel (start w))) = pre ++ Http (ExPut url payload r) :: post ->
  exists rest,
    post
    = match r with
      | inr _ =>
          [Printed ("✅ Updated page: " +++ pl_title payload);
           Printed ("   Version: " +++ str_of_Z (pl_version_number payload - 1)
                    +++ " → " +++ str_of_Z (pl_version_number payload) +++ nl)]
      | inl e =>
          Printed ("❌ Error updating page " +++ pl_title payload +++ ": "
                   +++ exc_str e)
          :: match exc_response e with
             | Some text => [Printed ("   Response: " +++ text)]
             | None => []
             end
      end ++ rest
    /\ (exists later ts, turns later ts /\ rest = ts ++ footer)
    /\ (rest = [Printed rule; Printed "✅ Confluence update complete!";
                Printed rule]
        \/ exists p r' rest',
             rest = Http (ExFetch (page_url (ps_id p)) content_params r')
                    :: rest').
Proof.
  intros Htrace.
  destruct (main T fuel (start w)) as [o s'] eqn:Hrun. cbn [snd] in Htrace.
  apply main_run_trace in Hrun.
  destruct (run_put_context o (trace s') pre post url payload r Hrun Htrace)
    as (pre' & p & page & post' & _ & _ & _ & _ & -> & Hrest & ->).
  exists post'. split; [|split; [exact Hrest | exact (rest_of_run_opens _ Hrest)]].
  unfold write_report, update_payload.
  cbn [pl_title pl_version_number].
  replace (fp_version page + 1 - 1)%Z with (fp_version page) by lia.
  destruct r as [e|u]; cbn [update_log is_ok]; [now rewrite app_nil_r|].
  reflexivity.
Qed.

(** The failed write to page A: the error line and the response text. *)
Lemma every_write_is_reported_at_once_witness :
  trace (snd (main Fixture.transport 1 (start Fixture.broken_write)))
  = firstn 10 (trace (snd (main Fixture.transport 1 (start Fixture.broken_write))))
    ++ Http (ExPut (page_url "1001")
               (mkPayload 4 update_message "Page A" "page"
                  (create_lambda_status_section +++ separator +++ "<p>old</p>")
                  "storage")
               (inl Fixture.server_error))
       :: skipn 11 (trace (snd (main Fixture.transport 1 (start Fixture.broken_write))))
  /\ exists rest,
       skipn 11 (trace (snd (main Fixture.transport 1 (start Fixture.broken_write))))
       = [Printed ("❌ Error updating page " +++ "Page A" +++ ": "
                   +++ "500 Server Error: Internal Server Error");
          Printed ("   Response: " +++ "<html>oops</html>")] ++ rest
       /\ (exists later ts, turns later ts /\ rest = ts ++ footer)
       /\ (rest = [Printed rule; Printed "✅ Confluence update complete!";
                   Printed rule]
           \/ exists p r' rest',
                rest = Http (ExFetch (page_url (ps_id p)) content_params r')
                       :: rest').
Proof.
  assert (H : trace (snd (main Fixture.transport 1 (start Fixture.broken_write)))
              = firstn 10 (trace (snd (main Fixture.transport 1
                                        (start Fixture.broken_write))))
                ++ Http (ExPut (page_url "1001")
                           (mkPayload 4 update_message "Page A" "page"
                              (create_lambda_status_section +++ separator
                               +++ "<p>old</p>")
                              "storage")
                           (inl Fixture.server_error))
                   :: skipn 11 (trace (snd (main Fixture.transport 1
                                             (start Fixture.broken_write)))))
    by (vm_compute; reflexivity).
  split; [exact H|].
  exact (every_write_is_reported_at_once Fixture.World Fixture.transport 1
           Fixture.broken_write _ _ _ _ _ H).
Defined.

(* ================================================================== *)
(** * Every fetch and what follows it *)
(* ================================================================== *)

Lemma quiet_no_fetch (tr : list Obs) :
  quiet tr -> Forall (fun o => is_fetch o = false) tr.
Proof.
  apply Forall_impl. intros [line|[u q r|u q r|u pl r]]; cbn; tauto.
Qed.

(** A turn opens with its fetch and holds no other; what comes after the
    fetch is what its reply calls for. *)
Lemma turn_opens_with_fetch (p : PageSummary) (t rest : list Obs) :
  turn p t -> rest_of_run rest ->
  exists r tail,
    t = Http (ExFetch (page_url (ps_id p)) content_params r) :: tail
    /\ Forall (fun o => is_fetch o = false) tail
    /\ after_fetch p (page_url (ps_id p)) r (tail ++ rest).
Proof.
  intros [e| |page Hm|page r Hm] Hrest.
  - eexists _, _. split; [reflexivity|]. split; [repeat constructor|].
    cbn [after_fetch app]. now eexists.
  - eexists _, _. split; [reflexivity|]. split; [constructor|].
    exact Hrest.
  - eexists _, _. split; [reflexivity|]. split; [repeat constructor|].
    cbn [after_fetch app]. rewrite Hm. now eexists.
  - eexists _, _. split; [reflexivity|]. split.
    + constructor; [reflexivity|]. apply quiet_no_fetch, turn_tail_quiet.
    + cbn [after_fetch app]. rewrite Hm. exists r, rest. now split.
Qed.

Lemma turns_fetch_context (ps : list PageSummary) (tr pre post : list Obs)
    (url : string) (params : Params) (r : Reply PageJson) :
  turns ps tr ->
  tr ++ footer = pre ++ Http (ExFetch url params r) :: post ->
  exists p,
    In p ps /\ url = page_url (ps_id p) /\ params = content_params
    /\ after_fetch p url r post.
Proof.
  intros Hturns. revert pre.
  induction Hturns as [|p ps t ts Ht Hts IH]; intros pre H.
  - exfalso. revert H. apply (no_such_obs is_fetch); [|reflexivity].
    apply quiet_no_fetch, quiet_footer.
  - assert (Hrest : rest_of_run (ts ++ footer)) by now exists ps, ts.
    destruct (turn_opens_with_fetch p t _ Ht Hrest)
      as (r0 & tail & -> & Htail & Hafter).
    rewrite <- app_assoc in H.
    destruct pre as [|a pre]; cbn [app] in H.
    + injection H as <- <- <- <-. exists p. split; [now left|].
      now repeat split.
    + injection H as <- H.
      apply (split_skip is_fetch) in H as (pre0 & -> & H);
        [| exact Htail | reflexivity].
      destruct (IH pre0 H) as (q & Hq & Hrest').
      exists q. split; [now right | exact Hrest'].
Qed.

Lemma run_fetch_context (o : Outcome unit) (tr pre post : list Obs)
    (url : string) (params : Params) (r : Reply PageJson) :
  run_trace o tr ->
  tr = pre ++ Http (ExFetch url params r) :: post ->
  exists p,
    In p (listed tr) /\ url = page_url (ps_id p) /\ params = content_params
    /\ after_fetch p url r post.
Proof.
  intros [xs Hq | xs e Hq | xs Hq Hl | xs t Hq Hne Hf Ht] H.
  - exfalso. revert H. apply (no_such_obs is_fetch); [|reflexivity].
    apply quiet_no_fetch. now constructor.
  - exfalso. revert H. apply (no_such_obs is_fetch); [|reflexivity].
    apply quiet_no_fetch. constructor; [exact I|].
    apply quiet_app; [exact Hq | repeat constructor].
  - exfalso. revert H. apply (no_such_obs is_fetch); [|reflexivity].
    apply quiet_no_fetch. constructor; [exact I|].
    apply quiet_app; [exact Hq | repeat constructor].
  - change (banner :: xs ++ header (listed xs) ++ t ++ footer)
      with ((banner :: xs) ++ header (listed xs) ++ t ++ footer) in *.
    rewrite (app_assoc (banner :: xs)) in H.
    apply (split_skip is_fetch) in H as (pre0 & -> & H);
      [| apply quiet_no_fetch, quiet_app;
         [constructor; [exact I | exact Hq] | apply quiet_header]
       | reflexivity].
    destruct (turns_fetch_context _ _ _ _ _ _ _ Ht H) as (p & Hp & Hrest).
    exists p. split; [|exact Hrest].
    rewrite listed_app. apply in_or_app. left. exact Hp.
Qed.



(* ================================================================== *)
(** * One write per page at most *)
(* ================================================================== *)

Lemma NoDup_map_filter {A B : Type} (f : A -> B) (g : A -> bool) (l : list A) :
  NoDup (map f l) -> NoDup (map f (filter g l)).
Proof.
  induction l as [|x l IH]; cbn [map filter]; intros H; [constructor|].
  inversion H as [|y ys Hnin Hnd]; subst.
  destruct (g x); cbn [map]; [|now apply IH].
  constructor; [|now apply IH].
  intros Hin. apply Hnin. apply in_map_iff in Hin as (z & Hz & Hzin).
  apply filter_In in Hzin as [Hzin _]. apply in_map_iff. now exists z.
Qed.

Lemma NoDup_map_injective {A B : Type} (f : A -> B) (l : list A) :
  (forall a b, f a = f b -> a = b) -> NoDup l -> NoDup (map f l).
Proof.
  intros Hinj. induction 1 as [|x l Hnin _ IH]; cbn [map]; constructor; [|exact IH].
  intros Hin. apply in_map_iff in Hin as (y & Hy & Hyin).
  apply Hinj in Hy. now subst y.
Qed.

Lemma fetch_replies_in_fetched (tr : list Obs) (u : string) :
  In u (map fst (fetch_replies tr)) -> In u (fetched tr).
Proof.
  unfold fetch_replies, fetched.
  induction tr as [|o tr IH]; [intros []|].
  destruct o as [line|[u0 q r|u0 q [e|[page|]]|u0 pl r]];
    cbn [flat_map app map fst In]; try exact IH.
  - intros H. right. now apply IH.
  - intros [H|H]; [now left | right; now apply IH].
  - intros H. right. now apply IH.
Qed.

Lemma fetch_replies_NoDup (tr : list Obs) :
  NoDup (fetched tr) -> NoDup (map fst (fetch_replies tr)).
Proof.
  induction tr as [|o tr IH]; [constructor|].
  unfold fetch_replies, fetched in *.
  destruct o as [line|[u0 q r|u0 q [e|[page|]]|u0 pl r]];
    cbn [flat_map app map fst]; intros H; try (now apply IH).
  - inversion H; subst. now apply IH.
  - inversion H as [|y ys Hnin Hnd]; subst.
    constructor; [|now apply IH].
    intros Hin. apply Hnin. now apply fetch_replies_in_fetched.
  - inversion H; subst. now apply IH.
Qed.

Lemma put_urls (l : list (string * Payload)) :
  map fst l = map (fun c => fst (fst (fst (fst (fst c))))) (map put_core l).
Proof. rewrite map_map. reflexivity. Qed.

Lemma expected_urls (l : list (string * FullPage)) :
  map (fun c => fst (fst (fst (fst (fst c))))) (map expected_put l) = map fst l.
Proof. rewrite map_map. reflexivity. Qed.

(** X11.  One write per page at most.  When the listing ends without a
    failure and no page id occurs twice in what it delivered, no two update
    requests of the run go to the same URL: a page is written at most once in
    a run, whatever fails. *)
Theorem each_page_is_written_at_most_once
    (W : Type) (T : Transport W) (fuel : nat) (w w' : W) (xs : list Obs) :
  conversation T content_url (listing_params SPACE_KEY) w xs Ended w' ->
  length xs <= fuel ->
  NoDup (map ps_id (listed xs)) ->
  NoDup (map fst (puts (trace (snd (main T fuel (start w)))))).
Proof.
  intros Hconv Hfuel Hids.
  pose proof (main_fetches_listed T fuel w w' xs Hconv Hfuel) as Hfetched.
  destruct (main T fuel (start w)) as [o s'] eqn:Hrun. cbn [snd] in *.
  apply main_run_trace in Hrun.
  destruct (run_trace_loop o (trace s') Hrun) as (ps & t & Ht & Hp & Hr & Hf & _).
  rewrite Hp, put_urls, (turns_puts ps t Ht), expected_urls.
  apply NoDup_map_filter, fetch_replies_NoDup.
  rewrite <- Hf, Hfetched, <- (map_map ps_id page_url).
  apply NoDup_map_injective; [|exact Hids].
  intros a b. apply page_url_inj.
Qed.

Lemma each_page_is_written_at_most_once_witness :
  exists xs,
    conversation Fixture.transport content_url (listing_params SPACE_KEY)
      Fixture.broken_write xs Ended
      (Fixture.mkWorld [Fixture.page_A; Fixture.page_C] 1
         [None; Some Fixture.server_error])
    /\ length xs = 1
    /\ NoDup (map ps_id (listed xs))
    /\ NoDup (map fst (puts (trace (snd (main Fixture.transport 1
                                           (start Fixture.broken_write)))))).
Proof.
  eexists.
  match goal with |- ?C /\ _ => assert (Hc : C) end.
  { eapply conv_last; [vm_compute; reflexivity | reflexivity]. }
  assert (Hids : NoDup (map ps_id
                          (listed [Http (ExList content_url (listing_params SPACE_KEY)
                                     (inr (Fixture.listing_at Fixture.broken_write 0)))]))).
  { repeat constructor; cbn; intuition discriminate. }
  split; [exact Hc|]. split; [reflexivity|]. split; [exact Hids|].
  exact (each_page_is_written_at_most_once Fixture.World Fixture.transport 1
           Fixture.broken_write _ _ Hc ltac:(cbn; lia) Hids).
Defined.

(* ================================================================== *)
(** * Where the failures go *)
(* ================================================================== *)

(** The listing loop raises what its last request raised, and no request
    before the last one failed. *)
Lemma listing_loop_failure {W : Type} (T : Transport W) fuel url params acc
    (s : State W) :
  exists xs,
    trace (snd (listing_loop T fuel url params acc s)) = trace s ++ xs
    /\ match fst (listing_loop T fuel url params acc s) with
       | Raises e =>
           exists xs' u q,
             xs = xs' ++ [Http (ExList u q (inl e))]
             /\ Forall (fun o => is_failed_listing o = false) xs'
       | _ => Forall (fun o => is_failed_listing o = false) xs
       end.
Proof.
  revert url params acc s. induction fuel as [|fuel IH]; intros url params acc s.
  - exists []. cbn. rewrite app_nil_r. split; [reflexivity | constructor].
  - cbn [listing_loop]. unfold bind, request_listing.
    destruct (get_listing T url params (world s)) as [[e|data] w'] eqn:Hg;
      cbn [of_reply].
    + exists [Http (ExList url params (inl e))]. cbn [fst snd trace].
      split; [reflexivity|]. exists [], url, params. split; [reflexivity | constructor].
    + destruct (next_link data) as [next|].
      * destruct (IH (CONFLUENCE_BASE_URL +++ next) [] (acc ++ results data)
                    (mkState w' (trace s ++ [Http (ExList url params (inr data))])))
          as (xs & Htr & Hout).
        exists (Http (ExList url params (inr data)) :: xs). split.
        -- rewrite Htr. cbn [trace]. now rewrite <- app_assoc.
        -- destruct (fst (listing_loop T fuel (CONFLUENCE_BASE_URL +++ next) []
                             (acc ++ results data)
                             (mkState w' (trace s
                                ++ [Http (ExList url params (inr data))]))))
             as [ps|e|].
           ++ constructor; [reflexivity | exact Hout].
           ++ destruct Hout as (xs' & u & q & -> & Hxs').
              exists (Http (ExList url params (inr data)) :: xs'), u, q.
              split; [reflexivity|]. constructor; [reflexivity | exact Hxs'].
           ++ constructor; [reflexivity | exact Hout].
      * exists [Http (ExList url params (inr data))]. unfold ret.
        cbn [fst snd trace]. split; [reflexivity | repeat constructor].
Qed.

Lemma no_listing_no_failure (tr : list Obs) :
  Forall (fun o => is_listing o = false) tr ->
  Forall (fun o => is_failed_listing o = false) tr.
Proof.
  apply Forall_impl. intros [line|[u q [e|data]|u q r|u pl r]]; cbn; congruence.
Qed.

(** In a run, a listing request that failed is followed by its error line
    and the line that nothing was found, and by nothing else. *)
Lemma failed_listing_context {W : Type} (T : Transport W) (fuel : nat) (w : W)
    (pre post : list Obs) (u : string) (q : Params) (e : RequestException) :
  trace (snd (main T fuel (start w))) = pre ++ Http (ExList u q (inl e)) :: post ->
  post = [listing_error e; no_pages].
Proof.
  rewrite main_unfold.
  destruct (listing_loop_failure T fuel content_url (listing_params SPACE_KEY) []
              (mkState w [banner])) as (xs & Htr & Hout).
  destruct (listing_loop T fuel content_url (listing_params SPACE_KEY) []
              (mkState w [banner])) as [[pages|e0|] s1];
    cbn [fst snd trace] in Htr, Hout.
  - destruct pages as [|p ps].
    + cbn [snd trace]. rewrite Htr. intros H. exfalso. revert H.
      apply (no_such_obs is_failed_listing); [|reflexivity].
      apply Forall_app. split; [|repeat constructor].
      constructor; [reflexivity | exact Hout].
    + cbv zeta. cbn [snd trace].
      destruct (loop_turns T (p :: ps)
                  (mkState (world s1) (trace s1 ++ header (p :: ps))))
        as (s2 & tr & -> & Htr2 & Hturns).
      cbn [snd]. rewrite Htr2. cbn [trace]. rewrite Htr.
      intros H. exfalso. revert H.
      apply (no_such_obs is_failed_listing); [|reflexivity].
      apply Forall_app; split; [apply Forall_app; split;
                                  [apply Forall_app; split|]|].
      * constructor; [reflexivity | exact Hout].
      * apply no_listing_no_failure, header_no_listing.
      * apply no_listing_no_failure, (turns_no_listing _ _ Hturns).
      * repeat constructor.
  - cbn [snd trace]. rewrite Htr.
    destruct Hout as (xs' & u0 & q0 & -> & Hxs').
    rewrite <- !app_assoc. cbn [app].
    change (banner :: xs' ++ ?l) with ((banner :: xs') ++ l).
    intros H.
    apply (split_skip is_failed_listing) in H as (pre' & _ & H);
      [| constructor; [reflexivity | exact Hxs'] | reflexivity].
    destruct pre' as [|z pre']; cbn [app] in H.
    + now injection H as _ _ <- <-.
    + injection H as _ H. exfalso. revert H.
      apply (no_such_obs is_failed_listing); [|reflexivity].
      repeat constructor.
  - cbn [snd]. rewrite Htr. intros H. exfalso. revert H.
    apply (no_such_obs is_failed_listing); [|reflexivity].
    constructor; [reflexivity | exact Hout].
Qed.

(** C8.  No [RequestException] leaves [main], whatever the service answers
    to the listing, to the fetches and to the writes; and whenever the listing
    conversation is finite and the fuel covers it, [main] returns.  Against
    the fixture service the conversation is always finite: with more fuel than
    the store has pages every run returns, whatever the schedule of failures.
    Every failure shows in the printed lines, and there only: in every run a
    listing request that failed is followed by its error line and the line
    that no pages were found, and the run is over; a fetch that failed is
    followed by the error line with the page id, and a write that failed by
    the error line with the title and then the text of the response when the
    exception carries one, and after either the run goes on with the pages
    still to come and the closing lines. *)
Theorem main_absorbs_every_error :
  (forall (W : Type) (T : Transport W) (fuel : nat) (w : W) e,
     fst (main T fuel (start w)) <> Raises e)
  /\ (forall (W : Type) (T : Transport W) (fuel : nat) (w : W) xs ending w',
        conversation T content_url (listing_params SPACE_KEY) w xs ending w' ->
        length xs <= fuel ->
        fst (main T fuel (start w)) = Returns tt)
  /\ (forall (w : Fixture.World) (fuel : nat),
        length (Fixture.pages w) < fuel ->
        fst (main Fixture.transport fuel (start w)) = Returns tt)
  /\ (forall (W : Type) (T : Transport W) (fuel : nat) (w : W)
             (pre post : list Obs) (e : RequestException),
        (forall url params,
           trace (snd (main T fuel (start w)))
           = pre ++ Http (ExList url params (inl e)) :: post ->
           post = [Printed ("Error fetching pages: " +++ exc_str e);
                   Printed "❌ No pages found or error occurred"])
        /\ (forall url params,
              trace (snd (main T fuel (start w)))
              = pre ++ Http (ExFetch url params (inl e)) :: post ->
              exists p rest,
                url = page_url (ps_id p)
                /\ post = Printed ("Error fetching page " +++ ps_id p +++ ": "
                                  +++ exc_str e) :: rest
                /\ rest_of_run rest)
        /\ (forall url payload,
              trace (snd (main T fuel (start w)))
              = pre ++ Http (ExPut url payload (inl e)) :: post ->
              exists rest,
                post = Printed ("❌ Error updating page " +++ pl_title payload
                                +++ ": " +++ exc_str e)
                       :: match exc_response e with
                          | Some text => [Printed ("   Response: " +++ text)]
                          | None => []
                          end ++ rest
                /\ rest_of_run rest)).
Proof.
  split; [|split; [|split]].
  - intros W T fuel w e He.
    destruct (main T fuel (start w)) as [o s'] eqn:Hrun. cbn [fst] in He. subst o.
    apply main_run_trace in Hrun. inversion Hrun.
  - intros W T fuel w xs ending w' Hconv Hfuel.
    rewrite (main_run T fuel w xs ending w' Hconv Hfuel).
    destruct ending; [destruct (listed xs)|]; reflexivity.
  - intros w fuel Hfuel. exact (fx_run_returns w fuel Hfuel).
  - intros W T fuel w pre post e. split; [|split].
    + intros url params H.
      exact (failed_listing_context T fuel w pre post url params e H).
    + intros url params H.
      destruct (main T fuel (start w)) as [o s'] eqn:Hrun. cbn [snd] in H.
      apply main_run_trace in Hrun.
      destruct (run_fetch_context o (trace s') pre post url params (inl e) Hrun H)
        as (p & _ & Hu & _ & rest & Hpost & Hrest).
      now exists p, rest.
    + intros url payload H.
      destruct (main T fuel (start w)) as [o s'] eqn:Hrun. cbn [snd] in H.
      apply main_run_trace in Hrun.
      destruct (run_put_context o (trace s') pre post url payload (inl e) Hrun H)
        as (pre' & p & page & post' & _ & _ & _ & _ & -> & Hrest & ->).
      exists post'. split; [|exact Hrest].
      unfold write_report, update_payload.
      cbn [pl_title update_log is_ok]. now rewrite app_nil_r.
Qed.

(** One failure in the listing, or in a fetch, or in a write, and the run
    returns; and the failure in the listing shows in the two lines that end
    the run. *)
Lemma main_absorbs_every_error_witness :
  fst (main Fixture.transport 2 (start Fixture.broken_listing)) = Returns tt
  /\ fst (main Fixture.transport 3 (start Fixture.broken_fetch)) = Returns tt
  /\ fst (main Fixture.transport 3 (start Fixture.broken_write)) = Returns tt
  /\ skipn 3 (trace (snd (main Fixture.transport 2 (start Fixture.broken_listing))))
     = [Printed "Error fetching pages: 500 Server Error: Internal Server Error";
        Printed "❌ No pages found or error occurred"].
Proof.
  split; [|split; [|split]].
  - eapply (proj1 (proj2 main_absorbs_every_error) Fixture.World
              Fixture.transport 2 Fixture.broken_listing
              _ (Failed Fixture.server_error) Fixture.three_chunks).
    + eapply conv_next; [vm_compute; reflexivity | reflexivity |].
      eapply conv_failed. vm_compute; reflexivity.
    + cbn. lia.
  - apply (proj1 (proj2 (proj2 main_absorbs_every_error)) Fixture.broken_fetch 3).
    cbn. lia.
  - apply (proj1 (proj2 (proj2 main_absorbs_every_error)) Fixture.broken_write 3).
    cbn. lia.
  - apply (proj1 (proj2 (proj2 (proj2 main_absorbs_every_error))
                    Fixture.World Fixture.transport 2 Fixture.broken_listing
                    (firstn 2 (trace (snd (main Fixture.transport 2
                                             (start Fixture.broken_listing)))))
                    (skipn 3 (trace (snd (main Fixture.transport 2
                                            (start Fixture.broken_listing)))))
                    Fixture.server_error)
             (CONFLUENCE_BASE_URL +++ Fixture.next_path 1) []).
    vm_compute; reflexivity.
Defined.
